(** * IP_Guardian: the Walrus blob transfer layer and the contract service

    A shallow embedding of the retry, fallback and dispatch logic of
    - [scripts/walrus-upload.js] (module [Script]: decoding of the signing
      key, upload with retry, download, command line dispatch),
    - the Walrus library wrapper (module [Lib]: upload with mock fallback and
      download with mock guard, both through a child process),
    - [app/api/download/[blobId]/route.ts] (module [Route]),
    - the combined upload and verify script and the standalone retrieval
      script (modules [Verify] and [Retrieve]),
    - the integrity checks of the combined script (module [Integrity]),
    - [ContractService]: the read-only queries (module [Contract]) and the
      methods that send a transaction (module [Service]).

    JavaScript control flow is written in a state and exception monad over a
    [World] that holds the file system, the standard output of the script
    and the trace of external effects.  The Walrus SDK, the child process,
    the clock, the random source and the file system faults are oracles,
    gathered in [Env]; the SDK and the child process see the whole trace so
    far, so that every deterministic behaviour of the network is covered.
    A string stands for its UTF-8 encoding, as the file system and the
    pipes of a child process carry it; lengths and positions agree with
    those of JavaScript on ASCII.
    [console.warn] and [console.error] write to the standard error, which
    decides nothing: they are left out.

    The file has two parts: the embedding, with the vocabulary of the
    statements and sample environments, then the properties. *)

From Stdlib Require Import ZArith Ascii String List Lia.
From Stdlib.Strings Require Import Byte.
From stdpp Require Import base option list strings gmap pretty.
From Equations Require Import Equations.

Local Open Scope string_scope.
Local Open Scope list_scope.

(** ** Values and errors *)

Abbreviation bytes := (list Byte.byte).

(** What a [catch] clause can see of a thrown value: whether it is an
    instance of the SDK's [RetryableWalrusClientError], and its message. *)
Inductive js_error : Type :=
| RetryableWalrusClientError (message : string)
| JsError (message : string).

Definition is_retryable (error : js_error) : bool :=
  match error with
  | RetryableWalrusClientError _ => true
  | JsError _ => false
  end.

Definition error_message (error : js_error) : string :=
  match error with
  | RetryableWalrusClientError m => m
  | JsError m => m
  end.

(** Completion of an awaited call or of a block: a value, or a thrown error. *)
Inductive completion (A : Type) : Type :=
| Normal (a : A)
| Throw (error : js_error).
Arguments Normal {A} a.
Arguments Throw {A} error.

(** The object resolved by [walrus.writeBlob]; only [blobId] is read. *)
Record WriteResult : Type := mkWriteResult { blobId : string }.

(** JavaScript truthiness of a string. *)
Definition truthy (s : string) : bool :=
  match s with
  | EmptyString => false
  | String _ _ => true
  end.

(** ** External effects *)

Inductive event : Type :=
| EvWriteBlob (blob : bytes) (outcome : completion WriteResult)
| EvReadBlob (id : string) (outcome : completion bytes)
| EvGetBlob (id : string)
| EvReset
| EvSleep (ms : Z)
| EvExec (command : string).

Record World : Type := mkWorld {
  fs : gmap string bytes;      (* files by path *)
  stdout : list string;        (* lines written by console.log *)
  trace : list event;          (* external effects, oldest first *)
  draws : nat                  (* Date.now / Math.random calls so far *)
}.

Record Env : Type := mkEnv {
  walrus_writeBlob : list event -> bytes -> completion WriteResult;
  walrus_readBlob : list event -> string -> completion bytes;
  walrus_getBlob : list event -> string -> completion unit;
  decodeSuiPrivateKey : string -> completion bytes;
  execAsync : list event -> gmap string bytes -> string ->
              completion (string * string) * gmap string bytes;
  write_fault : string -> option js_error;  (* paths writeFileSync rejects *)
  Date_now : nat -> Z;
  Math_random_base36 : nat -> string;  (* Math.random().toString(36).substr(2, 9) *)
  path_join : list string -> string;
  cwd : string;
  dirname : string
}.

(** ** The monad of asynchronous blocks *)

Definition M (A : Type) : Type := World -> completion A * World.

Definition ret {A} (a : A) : M A := fun w => (Normal a, w).

Definition bind {A B} (m : M A) (k : A -> M B) : M B :=
  fun w =>
    match m w with
    | (Normal a, w') => k a w'
    | (Throw e, w') => (Throw e, w')
    end.

Definition throw {A} (error : js_error) : M A := fun w => (Throw error, w).

(** [try { body } catch (error) { handler }] *)
Definition try_catch {A} (body : M A) (handler : js_error -> M A) : M A :=
  fun w =>
    match body w with
    | (Normal a, w') => (Normal a, w')
    | (Throw e, w') => handler e w'
    end.

#[export] Instance M_ret : MRet M := @ret.
#[export] Instance M_bind : MBind M := fun A B k m => bind m k.

Definition when (b : bool) (m : M unit) : M unit := if b then m else ret tt.

Definition emit (e : event) : M unit :=
  fun w => (Normal tt, mkWorld (fs w) (stdout w) (trace w ++ [e]) (draws w)).

Definition console_log (line : string) : M unit :=
  fun w => (Normal tt, mkWorld (fs w) (stdout w ++ [line]) (trace w) (draws w)).

(** [await new Promise(resolve => setTimeout(resolve, ms))] *)
Definition sleep (ms : Z) : M unit := emit (EvSleep ms).

Definition readFileSync (path : string) : M bytes :=
  fun w =>
    match fs w !! path with
    | Some data => (Normal data, w)
    | None => (Throw (JsError ("ENOENT: no such file or directory, open " +:+ path)), w)
    end.

Definition writeFileSync (env : Env) (path : string) (data : bytes) : M unit :=
  fun w =>
    match write_fault env path with
    | Some error => (Throw error, w)
    | None => (Normal tt, mkWorld (<[path := data]> (fs w)) (stdout w) (trace w) (draws w))
    end.

Definition unlinkSync (path : string) : M unit :=
  fun w =>
    match fs w !! path with
    | Some _ => (Normal tt, mkWorld (delete path (fs w)) (stdout w) (trace w) (draws w))
    | None => (Throw (JsError ("ENOENT: no such file or directory, unlink " +:+ path)), w)
    end.

Definition writeBlob (env : Env) (blob : bytes) : M WriteResult :=
  fun w =>
    let outcome := walrus_writeBlob env (trace w) blob in
    (outcome, mkWorld (fs w) (stdout w) (trace w ++ [EvWriteBlob blob outcome]) (draws w)).

Definition readBlob (env : Env) (id : string) : M bytes :=
  fun w =>
    let outcome := walrus_readBlob env (trace w) id in
    (outcome, mkWorld (fs w) (stdout w) (trace w ++ [EvReadBlob id outcome]) (draws w)).

Definition getBlob (env : Env) (id : string) : M unit :=
  fun w =>
    (walrus_getBlob env (trace w) id,
     mkWorld (fs w) (stdout w) (trace w ++ [EvGetBlob id]) (draws w)).

(** [walrusClient.walrus.reset()] *)
Definition reset : M unit := emit EvReset.

Definition exec (env : Env) (command : string) : M (string * string) :=
  fun w =>
    let '(outcome, fs') := execAsync env (trace w) (fs w) command in
    (outcome, mkWorld fs' (stdout w) (trace w ++ [EvExec command]) (draws w)).

Definition date_now (env : Env) : M Z :=
  fun w => (Normal (Date_now env (draws w)),
            mkWorld (fs w) (stdout w) (trace w) (S (draws w))).

Definition random_suffix (env : Env) : M string :=
  fun w => (Normal (Math_random_base36 env (draws w)),
            mkWorld (fs w) (stdout w) (trace w) (S (draws w))).

(** [new Uint8Array(buffer)] and [Buffer.from(array)] copy the bytes. *)
Definition Uint8Array_of (b : bytes) : bytes := b.
Definition Buffer_from (b : bytes) : bytes := b.

(** The effects a call added to the trace. *)
Definition events_since (w0 w1 : World) : list event :=
  drop (length (trace w0)) (trace w1).

Definition is_write (e : event) : bool :=
  match e with EvWriteBlob _ _ => true | _ => false end.
Definition is_read (e : event) : bool :=
  match e with EvReadBlob _ _ => true | _ => false end.

(** The delays waited, in order. *)
Fixpoint sleeps (evs : list event) : list Z :=
  match evs with
  | [] => []
  | EvSleep ms :: rest => ms :: sleeps rest
  | _ :: rest => sleeps rest
  end.

(** What a retry loop does, seen from outside: network attempts and waits. *)
Inductive step : Type :=
| Attempt
| Wait (ms : Z).

Fixpoint schedule (is_attempt : event -> bool) (evs : list event) : list step :=
  match evs with
  | [] => []
  | EvSleep ms :: rest => Wait ms :: schedule is_attempt rest
  | e :: rest =>
      if is_attempt e then Attempt :: schedule is_attempt rest
      else schedule is_attempt rest
  end.

(** ** The retry loop

    All four retry loops of the repository have the shape
    [while (attempts < maxAttempts) { try { ...; break } catch (error)
    { attempts++; ... } }].  [attempt] is the [try] block (it sees the number
    of failed attempts so far), [recover] is the [catch] block after
    [attempts++].  The loop yields [Some] of the value the [try] block left
    with, or [None] when the loop test fails; an error thrown inside the
    [catch] block leaves the loop. *)

Section RetryLoop.
Context {A : Type}.
Variable maxAttempts : nat.
Variable attempt : nat -> M A.
Variable recover : nat -> js_error -> M unit.

Equations? retry_loop (attempts : nat) : M (option A)
  by wf (maxAttempts - attempts) lt :=
retry_loop attempts with lt_dec attempts maxAttempts := {
  | left _ =>
      try_catch
        (result ← attempt attempts; ret (Some result))
        (fun error =>
           let attempts := S attempts in
           recover attempts error ;;
           retry_loop attempts)
  | right _ => ret None }.
Proof. lia. Qed.
End RetryLoop.

(** The runs of a retry loop whose [catch] block resets the client after a
    retryable error and then, while attempts remain, waits
    [attempts * factor] milliseconds; when none remain it throws
    [on_exhausted], if there is one.  [run n result evs]: entered with [n]
    failed attempts, the loop adds the events [evs] and ends with [result]. *)

Definition resets (error : js_error) : list event :=
  if is_retryable error then [EvReset] else [].

Section Runs.
Context {A : Type}.
Variable maxAttempts : nat.
Variable factor : Z.
Variable on_exhausted : option js_error.
Variable succeeded : A -> event -> Prop.
Variable failed : js_error -> event -> Prop.

Definition exhausted_result : completion (option A) :=
  match on_exhausted with
  | None => Normal None
  | Some error => Throw error
  end.

Inductive run : nat -> completion (option A) -> list event -> Prop :=
| run_skip n :
    maxAttempts <= n -> run n (Normal None) []
| run_success n a ev :
    n < maxAttempts -> succeeded a ev -> run n (Normal (Some a)) [ev]
| run_retry n error ev result evs :
    S n < maxAttempts -> failed error ev -> run (S n) result evs ->
    run n result
      (ev :: resets error ++ EvSleep (Z.of_nat (S n) * factor) :: evs)
| run_exhausted n error ev :
    S n = maxAttempts -> failed error ev ->
    run n exhausted_result (ev :: resets error).
End Runs.

(** ** Strings and buffers of the JavaScript runtime *)

(** One double quote character. *)
Definition dquote : string := String (ascii_of_nat 34) EmptyString.

(** [s.slice(n)] *)
Fixpoint string_drop (n : nat) (s : string) : string :=
  match n, s with
  | O, _ => s
  | S _, EmptyString => EmptyString
  | S n', String _ rest => string_drop n' rest
  end.

(** [s.replace(pattern, replacement)] for a string pattern: the first
    occurrence only. *)
Definition replace_first (pattern replacement s : string) : string :=
  match String.index 0 pattern s with
  | Some i =>
      String.substring 0 i s +:+ replacement
        +:+ string_drop (i + String.length pattern) s
  | None => s
  end.

(** [s.split(sep)] for a one-character separator. *)
Fixpoint split_on (sep : ascii) (s : string) : list string :=
  match s with
  | EmptyString => [EmptyString]
  | String c rest =>
      if Ascii.eqb c sep then EmptyString :: split_on sep rest
      else match split_on sep rest with
           | piece :: pieces => String c piece :: pieces
           | [] => [String c EmptyString]
           end
  end.

Definition newline : ascii := ascii_of_nat 10.

(** The white space and the line terminators that [trim] removes.  Below
    128: tab, line feed, vertical tab, form feed, carriage return, space. *)
Definition is_white_space (c : ascii) : bool :=
  let n := nat_of_ascii c in
  ((9 <=? n)%nat && (n <=? 13)%nat) || (n =? 32)%nat.

(** Beyond 128, in UTF-8: U+00A0 in two bytes; U+1680, U+2000 to U+200A,
    U+2028, U+2029, U+202F, U+205F, U+3000 and U+FEFF in three. *)
Definition is_white_space_2 (c1 c2 : ascii) : bool :=
  (N_of_ascii c1 =? 194)%N && (N_of_ascii c2 =? 160)%N.

Definition is_white_space_3 (c1 c2 c3 : ascii) : bool :=
  let n1 := N_of_ascii c1 in
  let n2 := N_of_ascii c2 in
  let n3 := N_of_ascii c3 in
  ((n1 =? 225) && (n2 =? 154) && (n3 =? 128)
   || (n1 =? 226) && (n2 =? 128)
      && ((128 <=? n3) && (n3 <=? 138) || (n3 =? 168) || (n3 =? 169) || (n3 =? 175))
   || (n1 =? 226) && (n2 =? 129) && (n3 =? 159)
   || (n1 =? 227) && (n2 =? 128) && (n3 =? 128)
   || (n1 =? 239) && (n2 =? 187) && (n3 =? 191))%N.

Fixpoint trim_start (s : string) : string :=
  match s with
  | EmptyString => EmptyString
  | String c1 rest1 =>
      if is_white_space c1 then trim_start rest1
      else
        match rest1 with
        | String c2 rest2 =>
            if is_white_space_2 c1 c2 then trim_start rest2
            else
              match rest2 with
              | String c3 rest3 =>
                  if is_white_space_3 c1 c2 c3 then trim_start rest3 else s
              | EmptyString => s
              end
        | EmptyString => s
        end
  end.

(** The longest end of [s] that is white space throughout is cut off. *)
Fixpoint trim_end (s : string) : string :=
  match s with
  | EmptyString => EmptyString
  | String c rest =>
      match trim_start s with
      | EmptyString => EmptyString
      | _ => String c (trim_end rest)
      end
  end.

(** [s.trim()] *)
Definition trim (s : string) : string := trim_end (trim_start s).

Definition byte_of_N (n : N) : Byte.byte := byte_of_ascii (ascii_of_N n).

(** Node's hex digit table. *)
Definition unhex (c : ascii) : option N :=
  let n := N_of_ascii c in
  if ((48 <=? n) && (n <=? 57))%N then Some (n - 48)%N
  else if ((65 <=? n) && (n <=? 70))%N then Some (n - 55)%N
  else if ((97 <=? n) && (n <=? 102))%N then Some (n - 87)%N
  else None.

(** [Buffer.from(s, 'hex')]: pairs of hex digits, stopping without an error
    at the first pair that is not one; an odd last digit is dropped. *)
Fixpoint Buffer_from_hex (s : string) : bytes :=
  match s with
  | String a (String b rest) =>
      match unhex a, unhex b with
      | Some hi, Some lo => byte_of_N (16 * hi + lo) :: Buffer_from_hex rest
      | _, _ => []
      end
  | _ => []
  end.

(** Node's base64 table: the standard and the URL-safe alphabet. *)
Definition unbase64 (c : ascii) : option N :=
  let n := N_of_ascii c in
  if ((65 <=? n) && (n <=? 90))%N then Some (n - 65)%N
  else if ((97 <=? n) && (n <=? 122))%N then Some (n - 71)%N
  else if ((48 <=? n) && (n <=? 57))%N then Some (n + 4)%N
  else if ((n =? 43) || (n =? 45))%N then Some 62%N
  else if ((n =? 47) || (n =? 95))%N then Some 63%N
  else None.

(** The legal characters up to the first [=]; other characters are skipped. *)
Fixpoint base64_sextets (s : string) : list N :=
  match s with
  | EmptyString => []
  | String c rest =>
      match unbase64 c with
      | Some v => v :: base64_sextets rest
      | None => if (N_of_ascii c =? 61)%N then [] else base64_sextets rest
      end
  end.

(** The three bytes of four sextets. *)
Definition octet1 (a b : N) : Byte.byte := byte_of_N (N.lor (N.shiftl a 2) (N.shiftr b 4)).
Definition octet2 (b c : N) : Byte.byte :=
  byte_of_N (N.lor (N.shiftl (N.land b 15) 4) (N.shiftr c 2)).
Definition octet3 (c d : N) : Byte.byte := byte_of_N (N.lor (N.shiftl (N.land c 3) 6) d).

Fixpoint base64_groups (sextets : list N) : bytes :=
  match sextets with
  | a :: b :: c :: d :: rest =>
      octet1 a b :: octet2 b c :: octet3 c d :: base64_groups rest
  | [a; b; c] => [octet1 a b; octet2 b c]
  | [a; b] => [octet1 a b]
  | _ => []
  end.

(** [Buffer.from(s, 'base64')]: never an error, whatever the string. *)
Definition Buffer_from_base64 (s : string) : bytes :=
  base64_groups (base64_sextets s).

(** The encoders, to say what "a key given in hex" or "in base64" is. *)
Definition hex_digit (n : N) : ascii :=
  if (n <? 10)%N then ascii_of_N (n + 48) else ascii_of_N (n + 87).

Fixpoint hex_encode (b : bytes) : string :=
  match b with
  | [] => EmptyString
  | x :: rest =>
      let n := Byte.to_N x in
      String (hex_digit (n / 16)) (String (hex_digit (n mod 16)) (hex_encode rest))
  end.

Definition base64_digit (n : N) : ascii :=
  if (n <? 26)%N then ascii_of_N (n + 65)
  else if (n <? 52)%N then ascii_of_N (n + 71)
  else if (n <? 62)%N then ascii_of_N (n - 4)
  else if (n =? 62)%N then ascii_of_N 43
  else ascii_of_N 47.

Definition pad : ascii := ascii_of_nat 61.

(** The four sextets of three bytes. *)
Definition sextet1 (x : Byte.byte) : N := N.shiftr (Byte.to_N x) 2.
Definition sextet2 (x y : Byte.byte) : N :=
  N.lor (N.shiftl (N.land (Byte.to_N x) 3) 4) (N.shiftr (Byte.to_N y) 4).
Definition sextet3 (y z : Byte.byte) : N :=
  N.lor (N.shiftl (N.land (Byte.to_N y) 15) 2) (N.shiftr (Byte.to_N z) 6).
Definition sextet4 (z : Byte.byte) : N := N.land (Byte.to_N z) 63.

Fixpoint base64_encode (b : bytes) : string :=
  match b with
  | x :: y :: z :: rest =>
      String (base64_digit (sextet1 x))
        (String (base64_digit (sextet2 x y))
           (String (base64_digit (sextet3 y z))
              (String (base64_digit (sextet4 z)) (base64_encode rest))))
  | [x; y] =>
      String (base64_digit (sextet1 x))
        (String (base64_digit (sextet2 x y))
           (String (base64_digit (sextet3 y Byte.x00))
              (String pad EmptyString)))
  | [x] =>
      String (base64_digit (sextet1 x))
        (String (base64_digit (sextet2 x Byte.x00))
           (String pad (String pad EmptyString)))
  | [] => EmptyString
  end.

(** A settled promise or a pure library call, run inside a block. *)
Definition lift {A} (c : completion A) : M A := fun w => (c, w).

(** How one attempt of an upload loop and of a retrieval loop shows in the
    trace.  A retrieval attempt also fails when the blob arrives and saving
    it to disk throws. *)
Definition write_succeeded (blob : bytes) (result : WriteResult) (ev : event) : Prop :=
  ev = EvWriteBlob blob (Normal result).
Definition write_failed (blob : bytes) (error : js_error) (ev : event) : Prop :=
  ev = EvWriteBlob blob (Throw error).
Definition read_succeeded (id : string) (_ : unit) (ev : event) : Prop :=
  exists data, ev = EvReadBlob id (Normal data).
Definition read_failed (id : string) (error : js_error) (ev : event) : Prop :=
  ev = EvReadBlob id (Throw error) \/ exists data, ev = EvReadBlob id (Normal data).

(** ** scripts/walrus-upload.js *)

Module Script.

Record Keypair : Type := mkKeypair { secret : bytes }.

(** [Ed25519Keypair.fromSecretKey]: a key of 32 bytes, or an error. *)
Definition fromSecretKey (key : bytes) : M Keypair :=
  if (length key =? 32)%nat then ret (mkKeypair key)
  else throw (JsError ("Wrong secretKey size. Expected 32 bytes, got "
                         +:+ pretty (length key))).

Definition invalid_length (len : nat) : js_error :=
  JsError ("Invalid private key length: " +:+ pretty len +:+ ", expected 32").

(** The [try] block that builds [keypair] from [SUI_SECRET_KEY]; the outer
    [catch] prints the error and ends the process with code 1, which is done
    by [cli] below when this block throws. *)
Definition create_keypair (env : Env) (secretKey : string) : M Keypair :=
  console_log ("🔑 Secret key length: " +:+ pretty (String.length secretKey)) ;;
  console_log ("🔑 Secret key preview: " +:+ String.substring 0 20 secretKey +:+ "...") ;;
  keypair ←
    try_catch
      ((* First try Sui private key format *)
       decodedSecretKey ← lift (decodeSuiPrivateKey env secretKey);
       if negb (length decodedSecretKey =? 32)%nat
       then throw (JsError ("Invalid decoded secret key length: "
                              +:+ pretty (length decodedSecretKey) +:+ ", expected 32"))
       else fromSecretKey decodedSecretKey)
      (fun _ =>
         (* Fallback: try other formats *)
         if String.prefix "0x" secretKey then
           let privateKeyBytes := Uint8Array_of (Buffer_from_hex (string_drop 2 secretKey)) in
           if negb (length privateKeyBytes =? 32)%nat
           then throw (invalid_length (length privateKeyBytes))
           else fromSecretKey privateKeyBytes
         else
           privateKeyBytes ←
             try_catch
               ((* Try as base64 *)
                ret (Uint8Array_of (Buffer_from_base64 secretKey)))
               (fun _ =>
                  try_catch
                    ((* Try as hex *)
                     let cleanSecret :=
                       if String.prefix "0x" secretKey then string_drop 2 secretKey
                       else secretKey in
                     ret (Uint8Array_of (Buffer_from_hex cleanSecret)))
                    (fun _ =>
                       throw (JsError "Could not decode private key. Ensure it is Sui, base64 or hex formatted.")));
           if negb (length privateKeyBytes =? 32)%nat
           then throw (invalid_length (length privateKeyBytes))
           else fromSecretKey privateKeyBytes);
  console_log "✅ Keypair created successfully" ;;
  ret keypair.

Definition maxAttempts : nat := 3.

(** The [try] block of the upload loop. *)
Definition upload_attempt (env : Env) (fileContents : bytes) (attempts : nat)
  : M WriteResult :=
  console_log ("📤 Upload attempt " +:+ pretty (attempts + 1) +:+ "/"
                 +:+ pretty maxAttempts +:+ "...") ;;
  result ← writeBlob env (Uint8Array_of fileContents);
  console_log ("✅ Upload succeeded on attempt " +:+ pretty (attempts + 1)) ;;
  ret result.

(** The [catch] block of the upload loop, after [attempts++]. *)
Definition upload_recover (attempts : nat) (error : js_error) : M unit :=
  when (is_retryable error)
    (console_log "🔄 Retryable error detected, resetting client..." ;;
     reset) ;;
  when (attempts <? maxAttempts)%nat
    (let delayMs := (Z.of_nat attempts * 3000)%Z in
     console_log ("🔄 Retrying in " +:+ pretty (delayMs / 1000)%Z +:+ " seconds...") ;;
     sleep delayMs).

Definition uploadToWalrus (env : Env) (filePath : string) : M string :=
  try_catch
    (console_log "🚀 Starting Walrus upload..." ;;
     fileContents ← readFileSync filePath;
     console_log ("📄 File loaded: " +:+ pretty (length fileContents) +:+ " bytes") ;;
     console_log "✅ WalrusClient created with upload relay" ;;
     result ← retry_loop maxAttempts (upload_attempt env fileContents) upload_recover 0;
     match result with
     | Some result =>
         if truthy (blobId result) then
           console_log ("🎉 Walrus upload successful! Blob ID: " +:+ blobId result) ;;
           ret (blobId result)
         else throw (JsError "Upload failed after all retries")
     | None => throw (JsError "Upload failed after all retries")
     end)
    (fun error => throw error).

Definition downloadFromWalrus (env : Env) (blobId : string) : M bytes :=
  try_catch
    (console_log ("📥 Starting Walrus download for blob: " +:+ blobId) ;;
     fileContents ← readBlob env blobId;
     console_log ("✅ Walrus download successful! Size: "
                    +:+ pretty (length fileContents) +:+ " bytes") ;;
     ret fileContents)
    (fun error => throw error).

Definition usage : M unit :=
  console_log "Usage:" ;;
  console_log "  node walrus-upload.js upload <file-path>" ;;
  console_log "  node walrus-upload.js download <blob-id>".

(** [command === name], where [command] is undefined without an argument. *)
Definition is_command (name : string) (command : option string) : bool :=
  match command with
  | Some c => String.eqb c name
  | None => false
  end.

(** The command line dispatch: [promise.then(...).catch(...)] runs the second
    callback when the promise rejects or the first callback throws.  The
    result is the code given to [process.exit]. *)
Definition dispatch (env : Env) (argv : list string) : M Z :=
  let command := argv !! 2%nat in
  let arg := argv !! 3%nat in
  match arg with
  | Some arg =>
      if is_command "upload" command && truthy arg then
        try_catch
          (blobId ← uploadToWalrus env arg;
           console_log "🎉 Upload completed successfully!" ;;
           console_log ("Blob ID: " +:+ blobId) ;;
           ret 0%Z)
          (fun _ => ret 1%Z)
      else if is_command "download" command && truthy arg then
        try_catch
          (fileContents ← downloadFromWalrus env arg;
           let outputPath :=
             path_join env [dirname env; "downloaded-" +:+ arg +:+ ".bin"] in
           writeFileSync env outputPath (Buffer_from fileContents) ;;
           console_log "🎉 Download completed successfully!" ;;
           console_log ("File saved to: " +:+ outputPath) ;;
           ret 0%Z)
          (fun _ => ret 1%Z)
      else usage ;; ret 1%Z
  | None => usage ;; ret 1%Z
  end.

(** The whole script, from the environment variable and the arguments to the
    exit code. *)
Definition cli (env : Env) (SUI_SECRET_KEY : option string) (argv : list string)
  : M Z :=
  match SUI_SECRET_KEY with
  | None => ret 1%Z
  | Some secretKey =>
      if negb (truthy secretKey) then ret 1%Z
      else
        fun w =>
          match create_keypair env secretKey w with
          | (Normal _, w1) => dispatch env argv w1
          | (Throw _, w1) => (Normal 1%Z, w1)
          end
  end.

End Script.

(** ** The Walrus library wrapper (upload and download through a child
    process running the script above)

    Console output of the server and of the two diagnostic scripts further
    down is not modelled: nothing reads it. *)

Module Lib.

Definition script_command (env : Env) (subcommand arg : string) : string :=
  let scriptPath := path_join env [cwd env; "scripts"; "walrus-upload.js"] in
  "node " +:+ dquote +:+ scriptPath +:+ dquote +:+ " " +:+ subcommand +:+ " "
    +:+ dquote +:+ arg +:+ dquote.

(** [stdout.split('\n').find(line => line.startsWith(prefix))] *)
Definition find_line (prefix stdout : string) : option string :=
  List.find (String.prefix prefix) (split_on newline stdout).

(** The [try] block of [uploadToWalrus].  [mkdirSync] sits in a [try] with
    an empty [catch] and the file system here has no directories, so it
    leaves no mark. *)
Definition uploadToWalrus_try (env : Env) (fileContents : bytes) : M string :=
  let tempDir := path_join env [cwd env; "temp"] in
  now ← date_now env;
  suffix ← random_suffix env;
  let tempFile :=
    path_join env [tempDir; "upload-" +:+ pretty now +:+ "-" +:+ suffix +:+ ".tmp"] in
  writeFileSync env tempFile fileContents ;;
  '(stdout, stderr) ← exec env (script_command env "upload" tempFile);
  try_catch (unlinkSync tempFile) (fun _ => ret tt) ;;
  match find_line "Blob ID:" stdout with
  | None => throw (JsError "Could not extract blob ID from script output")
  | Some blobIdLine => ret (trim (replace_first "Blob ID:" EmptyString blobIdLine))
  end.

Definition mock_prefix : string := "mock-blob-".

(** The [catch] block of [uploadToWalrus]: fall back to a mock blob id. *)
Definition mock_fallback (env : Env) : M string :=
  now ← date_now env;
  suffix ← random_suffix env;
  ret (mock_prefix +:+ pretty now +:+ "-" +:+ suffix).

Definition uploadToWalrus (env : Env) (fileContents : bytes) : M string :=
  try_catch (uploadToWalrus_try env fileContents) (fun _ => mock_fallback env).

(** The [try] block of [downloadFromWalrus]. *)
Definition downloadFromWalrus_try (env : Env) (blobId : string) : M bytes :=
  if String.prefix "mock-blob-" blobId
  then throw (JsError "Cannot download mock blob ID")
  else
    '(stdout, stderr) ← exec env (script_command env "download" blobId);
    match find_line "File saved to:" stdout with
    | None => throw (JsError "Could not find downloaded file path")
    | Some filePathLine =>
        let filePath := trim (replace_first "File saved to:" EmptyString filePathLine) in
        fileContents ← readFileSync filePath;
        try_catch (unlinkSync filePath) (fun _ => ret tt) ;;
        ret (Uint8Array_of fileContents)
    end.

Definition downloadFromWalrus (env : Env) (blobId : string) : M bytes :=
  try_catch (downloadFromWalrus_try env blobId) (fun error => throw error).

End Lib.

(** ** app/api/download/[blobId]/route.ts *)

Module Route.

Inductive Body : Type :=
| Json (error : string)      (* the object [{ error }] *)
| Raw (data : bytes).

Record Response : Type := mkResponse {
  status : Z;
  headers : list (string * string);
  body : Body
}.

(** [NextResponse.json({ error }, { status })] *)
Definition json_error (error : string) (status : Z) : Response :=
  mkResponse status [("content-type", "application/json")] (Json error).

(** [params.blobId] is [None] when the route parameter is undefined. *)
Definition GET (env : Env) (params_blobId : option string) : M Response :=
  try_catch
    (match params_blobId with
     | None => ret (json_error "Blob ID is required" 400)
     | Some blobId =>
         if negb (truthy blobId) then ret (json_error "Blob ID is required" 400)
         else if String.prefix "mock-blob-" blobId
         then ret (json_error "Mock blob ID - file not available for download" 404)
         else
           fileContents ← Lib.downloadFromWalrus env blobId;
           ret (mkResponse 200
                  [("Content-Type", "application/octet-stream");
                   ("Content-Disposition",
                    "attachment; filename=" +:+ dquote +:+ "file-" +:+ blobId +:+ dquote);
                   ("Content-Length", pretty (length fileContents))]
                  (Raw fileContents))
     end)
    (fun _ => ret (json_error "Failed to download file" 500)).

End Route.

(** ** The combined upload and verify script *)

Module Verify.

Definition maxAttempts : nat := 3.
Definition maxRetrievalAttempts : nat := 3.

Definition upload_attempt (env : Env) (pdfContents : bytes) (attempts : nat)
  : M WriteResult :=
  writeBlob env (Uint8Array_of pdfContents).

Definition upload_recover (attempts : nat) (error : js_error) : M unit :=
  when (is_retryable error) reset ;;
  when (attempts <? maxAttempts)%nat
    (sleep (Z.of_nat attempts * 3000)%Z).

(** Lines 47 to 83: the upload loop. *)
Definition upload_phase (env : Env) (pdfContents : bytes) : M (option WriteResult) :=
  retry_loop maxAttempts (upload_attempt env pdfContents) upload_recover 0.

(** The [try] block of the retrieval loop; the integrity checks after
    [writeFileSync] only print. *)
Definition retrieval_attempt (env : Env) (blobId : string) (attempts : nat)
  : M unit :=
  retrievedContents ← readBlob env blobId;
  writeFileSync env "downloaded_clean.pdf" (Buffer_from retrievedContents).

(** The [catch] block of the retrieval loop; its [else] branch only prints. *)
Definition retrieval_recover (attempts : nat) (error : js_error) : M unit :=
  when (is_retryable error) reset ;;
  if (attempts <? maxRetrievalAttempts)%nat
  then sleep (Z.of_nat attempts * 5000)%Z
  else ret tt.

(** Lines 100 to 185: the retrieval loop. *)
Definition retrieval_phase (env : Env) (blobId : string) : M (option unit) :=
  retry_loop maxRetrievalAttempts (retrieval_attempt env blobId) retrieval_recover 0.

Definition main (env : Env) : M unit :=
  pdf ← try_catch (contents ← readFileSync "./test.pdf"; ret (Some contents))
                  (fun _ => ret None);
  match pdf with
  | None => ret tt
  | Some pdfContents =>
      result ← upload_phase env pdfContents;
      match result with
      | Some result =>
          if truthy (blobId result) then
            sleep 8000 ;;
            retrieval_phase env (blobId result) ;;
            ret tt
          else ret tt
      | None => ret tt
      end
  end.

End Verify.

(** ** The standalone retrieval script *)

Module Retrieve.

Definition blobId : string := "SxBnbtaYl9w90hBVRg9JTDIG_L4EtYvX0kO7WRS85Y4".

Definition maxRetrievalAttempts : nat := 2.

Definition exhausted : js_error :=
  JsError ("All retrieval attempts failed for blob ID: " +:+ blobId).

(** The [try] block of the retrieval loop; it ends with [return]. *)
Definition retrieval_attempt (env : Env) (attempts : nat) : M unit :=
  retrievedContents ← readBlob env blobId;
  writeFileSync env "downloaded_test.pdf" (Buffer_from retrievedContents).

Definition retrieval_recover (attempts : nat) (error : js_error) : M unit :=
  when (is_retryable error) reset ;;
  if (attempts <? maxRetrievalAttempts)%nat
  then sleep (Z.of_nat attempts * 3000)%Z
  else throw exhausted.

(** [attemptDownload(walrusClient, methodName)]; both clients talk to the
    same network, so the client is not a parameter of the model. *)
Definition check_existence (env : Env) : M unit :=
  try_catch (getBlob env blobId) (fun _ => ret tt).

Definition attemptDownload (env : Env) : M unit :=
  check_existence env ;;
  retry_loop maxRetrievalAttempts (retrieval_attempt env) retrieval_recover 0 ;;
  ret tt.

(** [downloadBlobById]: the two client configurations in turn. *)
Definition downloadBlobById (env : Env) : M unit :=
  try_catch (attemptDownload env)
    (fun _ => try_catch (attemptDownload env) (fun _ => ret tt)).

End Retrieve.

(** ** ContractService: the read-only queries *)

Module Contract.

(** [Number(x)] for a bigint [x]: the nearest double, ties to even.  The
    result is an integer, kept as a [Z]; contract integers are below
    [2^256], far from the overflow of doubles. *)
Definition Number (x : Z) : Z :=
  let a := Z.abs x in
  if (a <? 2 ^ 53)%Z then x
  else
    let e := (Z.log2 a - 52)%Z in
    let q := (a / 2 ^ e)%Z in
    let r := (a mod 2 ^ e)%Z in
    let half := (2 ^ (e - 1))%Z in
    let q' := if (half <? r)%Z || ((r =? half)%Z && Z.odd q) then (q + 1)%Z else q in
    (Z.sgn x * (q' * 2 ^ e))%Z.

(** An item struct as the contract returns it. *)
Record ItemStruct : Type := mkItemStruct {
  s_itemId : Z;
  s_title : string;
  s_description : string;
  s_blobId : string;
  s_owner : string;
  s_price : Z;
  s_rentalPrice : Z;
  s_isActive : bool;
  s_createdAt : Z;
  s_totalRentals : Z;
  s_totalRevenue : Z
}.

Record IPItem : Type := mkIPItem {
  itemId : Z;
  title : string;
  description : string;
  blobId : string;
  owner : string;
  price : string;
  rentalPrice : string;
  isActive : bool;
  createdAt : Z;
  totalRentals : Z;
  totalRevenue : string
}.

(** What each contract call resolves to or rejects with. *)
Record Handle : Type := mkHandle {
  call_getActiveItems : Z -> Z -> completion (list ItemStruct);
  call_getUserItems : string -> completion (list Z);
  call_getUserRentals : string -> completion (list Z);
  call_hasActiveRental : Z -> string -> completion bool;
  call_getTotalItems : completion Z;
  call_getTotalRentals : completion Z
}.

(** [try { return f(await call) } catch (error) { return fallback }] *)
Definition guarded {A B} (call : completion A) (f : A -> B) (fallback : B)
  : completion B :=
  match call with
  | Normal a => Normal (f a)
  | Throw _ => Normal fallback
  end.

Definition to_IPItem (item : ItemStruct) : IPItem :=
  mkIPItem (Number (s_itemId item)) (s_title item) (s_description item)
    (s_blobId item) (s_owner item) (pretty (s_price item))
    (pretty (s_rentalPrice item)) (s_isActive item)
    (Number (s_createdAt item)) (Number (s_totalRentals item))
    (pretty (s_totalRevenue item)).

(** [offset] and [limit] default to 0 and 20 when not given. *)
Definition getActiveItems (contract : Handle) (offset limit : option Z)
  : completion (list IPItem) :=
  guarded (call_getActiveItems contract (default 0%Z offset) (default 20%Z limit))
    (map to_IPItem) [].

Definition getUserItems (contract : Handle) (userAddress : string)
  : completion (list Z) :=
  guarded (call_getUserItems contract userAddress) (map Number) [].

Definition getUserRentals (contract : Handle) (userAddress : string)
  : completion (list Z) :=
  guarded (call_getUserRentals contract userAddress) (map Number) [].

Definition hasActiveRental (contract : Handle) (itemId : Z) (userAddress : string)
  : completion bool :=
  guarded (call_hasActiveRental contract itemId userAddress) id false.

Definition getTotalItems (contract : Handle) : completion Z :=
  guarded (call_getTotalItems contract) Number 0%Z.

Definition getTotalRentals (contract : Handle) : completion Z :=
  guarded (call_getTotalRentals contract) Number 0%Z.

End Contract.

(** ** Vocabulary of the statements *)

Definition attempts_made (is_attempt : event -> bool) (evs : list event) : nat :=
  length (List.filter is_attempt evs).

(** The schedules of an upload: one to three attempts, 3 s after the first
    failure and 6 s after the second. *)
Definition upload_schedules : list (list step) :=
  [ [Attempt];
    [Attempt; Wait 3000; Attempt];
    [Attempt; Wait 3000; Attempt; Wait 6000; Attempt] ].

Definition verify_retrieval_schedules : list (list step) :=
  [ [Attempt];
    [Attempt; Wait 5000; Attempt];
    [Attempt; Wait 5000; Attempt; Wait 10000; Attempt] ].

Definition standalone_retrieval_schedules : list (list step) :=
  [ [Attempt];
    [Attempt; Wait 3000; Attempt] ].

(** What [Script.uploadToWalrus] makes of the result of its loop. *)
Definition script_upload_result (loop_result : completion (option WriteResult))
  : completion string :=
  match loop_result with
  | Normal (Some result) =>
      if truthy (blobId result) then Normal (blobId result)
      else Throw (JsError "Upload failed after all retries")
  | Normal None => Throw (JsError "Upload failed after all retries")
  | Throw error => Throw error
  end.

(** "Any other error aborts the retry loop": no write is attempted after a
    write that failed with an error that is not retryable. *)
Definition aborts_after_terminal_error (evs : list event) : Prop :=
  forall i j blob message ev,
    evs !! i = Some (EvWriteBlob blob (Throw (JsError message))) ->
    i < j -> evs !! j = Some ev -> is_write ev = false.

(** "The delay before retry [attempt_index + 1] is [attempt_index * factor]". *)
Definition delays_follow (factor : Z) (delays : list Z) : Prop :=
  forall i ms, delays !! i = Some ms -> ms = (Z.of_nat (S i) * factor)%Z.

(** Every read that failed with a retryable error is followed by a reset. *)
Definition reset_after_retryable_read (evs : list event) : Prop :=
  forall i id message,
    evs !! i = Some (EvReadBlob id (Throw (RetryableWalrusClientError message))) ->
    evs !! S i = Some EvReset.

(** The key that [Script.create_keypair] accepts or the error it throws,
    without the console output: the network-native form first; when that
    fails, hex for a key that starts with [0x] and base64 for any other. *)
Definition checked_length (key : bytes) : completion bytes :=
  if (length key =? 32)%nat then Normal key
  else Throw (Script.invalid_length (length key)).

Definition fallback_key (secretKey : string) : completion bytes :=
  if String.prefix "0x" secretKey
  then checked_length (Buffer_from_hex (string_drop 2 secretKey))
  else checked_length (Buffer_from_base64 secretKey).

Definition decoded_key (env : Env) (secretKey : string) : completion bytes :=
  match decodeSuiPrivateKey env secretKey with
  | Normal key => if (length key =? 32)%nat then Normal key else fallback_key secretKey
  | Throw _ => fallback_key secretKey
  end.

(** Checks run over all bytes and all pairs of bytes, for the base64 round
    trip: the digit of a sextet decodes to the sextet, and the bytes come
    back from their sextets. *)
Definition all_bytes : bytes := map (fun n => byte_of_N (N.of_nat n)) (seq 0 256).

Definition digit_ok (n : N) : bool :=
  match unbase64 (base64_digit n) with
  | Some m => (m =? n)%N
  | None => false
  end.

Definition pair_ok (x y : Byte.byte) : bool :=
  digit_ok (sextet2 x y) && digit_ok (sextet3 x y)
  && Byte.eqb (octet1 (sextet1 x) (sextet2 x y)) x
  && (N.land (sextet2 x y) 15 =? N.shiftr (Byte.to_N y) 4)%N
  && (N.shiftr (sextet3 x y) 2 =? N.land (Byte.to_N x) 15)%N
  && (N.land (sextet3 x y) 3 =? N.shiftr (Byte.to_N y) 6)%N.

Definition byte_ok (x : Byte.byte) : bool :=
  digit_ok (sextet1 x) && digit_ok (sextet4 x)
  && Byte.eqb (byte_of_N (N.lor (N.shiftl (N.shiftr (Byte.to_N x) 4) 4)
                            (N.land (Byte.to_N x) 15))) x
  && Byte.eqb (byte_of_N (N.lor (N.shiftl (N.shiftr (Byte.to_N x) 6) 6)
                            (sextet4 x))) x.

(** The two subcommands: [process.argv[2]] and a non-empty [process.argv[3]]. *)
Definition upload_command (argv : list string) (path : string) : Prop :=
  argv !! 2 = Some "upload" /\ argv !! 3 = Some path /\ truthy path = true.
Definition download_command (argv : list string) (id : string) : Prop :=
  argv !! 2 = Some "download" /\ argv !! 3 = Some id /\ truthy id = true.

(** ** Sample environments *)

Definition payload : bytes := [Byte.x01; Byte.x02; Byte.x03; Byte.x04; Byte.x05].

Definition sample_world : World :=
  mkWorld {[ "payload.bin" := payload ]} [] [] 0.

(** A stand-in for [decodeSuiPrivateKey]: it rejects what does not start
    with [suiprivkey1], as the real one does, and reads the rest as hex,
    where the real one reads Bech32. *)
Definition sample_decodeSuiPrivateKey (s : string) : completion bytes :=
  if String.prefix "suiprivkey1" s
  then Normal (Buffer_from_hex (string_drop 11 s))
  else Throw (JsError "invalid private key prefix").

Definition sample_join (parts : list string) : string :=
  foldr (fun part rest =>
           match rest with
           | EmptyString => part
           | _ => part +:+ "/" +:+ rest
           end) EmptyString parts.

Definition sample_env
    (write : list event -> bytes -> completion WriteResult)
    (read : list event -> string -> completion bytes)
    (child : completion (string * string)) : Env :=
  mkEnv write read (fun _ _ => Normal tt) sample_decodeSuiPrivateKey
    (fun _ files _ => (child, files))
    (fun _ => None)
    (fun n => (1700000000000 + Z.of_nat n)%Z)
    (fun _ => "k3j9x0q2a")
    sample_join
    "/app"
    "/app/scripts".

(** A network in which the [n]-th call is answered by the [n]-th entry of a
    script and everything after the script succeeds. *)
Definition scripted_env
    (writes : list (completion WriteResult))
    (reads : list (completion bytes))
    (child : completion (string * string)) : Env :=
  sample_env
    (fun history blob =>
       default (Normal (mkWriteResult "blob-1"))
         (writes !! attempts_made is_write history))
    (fun history id =>
       default (Normal payload) (reads !! attempts_made is_read history))
    child.

(** The standard output of a child process, from its lines. *)
Definition output (lines : list string) : string :=
  foldr (fun line rest => line +:+ String newline rest) EmptyString lines.

(** A world with the file the combined script uploads. *)
Definition pdf_world : World :=
  mkWorld {[ "./test.pdf" := payload ]} [] [] 0.

(** A world in which the child process has saved a download, and the child's
    answer that says so. *)
Definition saved_world : World :=
  mkWorld {[ "/app/scripts/downloaded-blob-1.bin" := payload ]} [] [] 0.

Definition saved : completion (string * string) :=
  Normal (output ["🎉 Download completed successfully!";
                  "File saved to: /app/scripts/downloaded-blob-1.bin"],
          EmptyString).

Definition exit_1 : completion (string * string) :=
  Throw (JsError "Command failed: node walrus-upload.js").

Definition terminal : completion WriteResult := Throw (JsError "400 Bad Request").
Definition transient {A} : completion A :=
  Throw (RetryableWalrusClientError "connection reset").

(** A signing key of 32 bytes and its three encodings. *)
Definition sample_key : bytes :=
  [Byte.x00; Byte.x01; Byte.x02; Byte.x03; Byte.x04; Byte.x05; Byte.x06; Byte.x07;
   Byte.x08; Byte.x09; Byte.x0a; Byte.x0b; Byte.x0c; Byte.x0d; Byte.x0e; Byte.x0f;
   Byte.x10; Byte.x11; Byte.x12; Byte.x13; Byte.x14; Byte.x15; Byte.x16; Byte.x17;
   Byte.x18; Byte.x19; Byte.x1a; Byte.x1b; Byte.x1c; Byte.x1d; Byte.x1e; Byte.x1f].

Definition raw_hex_key : string :=
  "000102030405060708090a0b0c0d0e0f101112131415161718191a1b1c1d1e1f".

Definition prefixed_hex_key : string := "0x" +:+ raw_hex_key.

Definition base64_key : string := "AAECAwQFBgcICQoLDA0ODxAREhMUFRYXGBkaGxwdHh8=".

Definition sui_key : string := "suiprivkey1" +:+ raw_hex_key.

(** A contract that cannot be reached, and one that holds nothing. *)
Definition rpc_down {A} : completion A := Throw (JsError "could not detect network").

Definition unreachable_contract : Contract.Handle :=
  Contract.mkHandle (fun _ _ => rpc_down) (fun _ => rpc_down) (fun _ => rpc_down)
    (fun _ _ => rpc_down) rpc_down rpc_down.

Definition empty_contract : Contract.Handle :=
  Contract.mkHandle (fun _ _ => Normal []) (fun _ => Normal []) (fun _ => Normal [])
    (fun _ _ => Normal false) (Normal 0%Z) (Normal 0%Z).

(** A network that is down, and a child process that fails. *)
Definition offline_env : Env :=
  sample_env (fun _ _ => transient) (fun _ _ => transient) exit_1.

(** A healthy network and a file system that refuses every write. *)
Definition read_only_env : Env :=
  let base := scripted_env [] [] exit_1 in
  mkEnv (walrus_writeBlob base) (walrus_readBlob base) (walrus_getBlob base)
    (decodeSuiPrivateKey base) (execAsync base)
    (fun _ => Some (JsError "EROFS: read-only file system"))
    (Date_now base) (Math_random_base36 base) (path_join base) (cwd base)
    (dirname base).

(** The answer of a child process that has uploaded. *)
Definition uploaded : completion (string * string) :=
  Normal (output ["🚀 Starting Walrus upload...";
                  "🎉 Walrus upload successful! Blob ID: blob-1";
                  "🎉 Upload completed successfully!";
                  "Blob ID: blob-1"],
          EmptyString).

(** ** The integrity checks of the combined script

    Lines 119 to 161 of the combined script compare what was read back with
    what was uploaded and print the outcome; nothing else depends on it. *)

Module Integrity.

(** [a[i] !== b[i]]; an index past the end reads [undefined]. *)
Definition differ_at (a b : bytes) (i : nat) : bool :=
  match a !! i, b !! i with
  | Some x, Some y => negb (Byte.eqb x y)
  | None, None => false
  | _, _ => true
  end.

(** The [for] loop: the first position below [Math.min(50, length)] where
    the two differ. *)
Definition first_mismatch (pdfContents retrievedContents : bytes) : option nat :=
  List.find (differ_at pdfContents retrievedContents)
    (seq 0 (Nat.min 50 (length pdfContents))).

(** [Array.from(contents).reduce((a, b) => a + b, 0)]; the sum of a file
    stays far below [2^53], where doubles are exact. *)
Definition checksum (contents : bytes) : N :=
  fold_left (fun a b => (a + Byte.to_N b)%N) contents 0%N.

(** What the checks print. *)
Inductive report : Type :=
| SizeMismatch
| ByteMismatch (position : nat)
| Compared (headerIntact checksumMatch : bool).

Section Decoder.

(** [new TextDecoder().decode] *)
Variable TextDecoder_decode : bytes -> string.

Definition integrity_checks (pdfContents retrievedContents : bytes) : report :=
  let sizeMatch := (length retrievedContents =? length pdfContents)%nat in
  if sizeMatch then
    match first_mismatch pdfContents retrievedContents with
    | Some i => ByteMismatch i
    | None =>
        let originalHeader := TextDecoder_decode (take 8 pdfContents) in
        let retrievedHeader := TextDecoder_decode (take 8 retrievedContents) in
        Compared
          (String.eqb originalHeader retrievedHeader
           && String.prefix "%PDF" originalHeader)
          (checksum pdfContents =? checksum retrievedContents)%N
    end
  else SizeMismatch.

End Decoder.

End Integrity.

(** A file of 52 bytes and the same file with its last two bytes swapped;
    a decoder for bytes below 128. *)
Definition original_file : bytes :=
  [Byte.x25; Byte.x50; Byte.x44; Byte.x46] ++ replicate 46 Byte.x00
    ++ [Byte.x01; Byte.x02].

Definition reordered_file : bytes :=
  [Byte.x25; Byte.x50; Byte.x44; Byte.x46] ++ replicate 46 Byte.x00
    ++ [Byte.x02; Byte.x01].

Definition ascii_decode (contents : bytes) : string :=
  string_of_list_ascii (map ascii_of_byte contents).

(** ** Vocabulary of the statements, continued *)

(** A string without a line feed; a line that the parser of the library
    passes over when it looks for the line that starts with [prefix]. *)
Fixpoint no_newline (s : string) : bool :=
  match s with
  | EmptyString => true
  | String c rest => negb (Ascii.eqb c newline) && no_newline rest
  end.

Definition passed_over (prefix line : string) : bool :=
  no_newline line && negb (String.prefix prefix line).

(** The temporary file of [Lib.uploadToWalrus], named after the clock and
    the random source. *)
Definition upload_temp_file (env : Env) (w : World) : string :=
  path_join env
    [path_join env [cwd env; "temp"];
     "upload-" +:+ pretty (Date_now env (draws w)) +:+ "-"
       +:+ Math_random_base36 env (S (draws w)) +:+ ".tmp"].










(** ** ContractService: the transactions

    The methods of the service that send a transaction.  What the service
    prints is not modelled: nothing reads it.  The answers of the signer,
    of its provider and of the contract are given for the calls made so
    far, in order and with their arguments. *)

Module Service.

Record Network : Type := mkNetwork { network_name : string; chainId : Z }.
Record Tx : Type := mkTx { hash : string }.
Record Log : Type := mkLog { topics : list string; data : string }.
Record Receipt : Type := mkReceipt { logs : list Log }.

(** What [interface.parseLog] makes of a log: the name of the event and,
    for the code below, its [itemId] argument. *)
Record LogDescription : Type := mkLogDescription { name : string; args_itemId : Z }.

(** The last argument of a contract method: [{ gasLimit }] or [{ value }]. *)
Record Overrides : Type := mkOverrides { gasLimit : option Z; value : option string }.

(** A contract method with its arguments. *)
Inductive request : Type :=
| CreateItem (title description blobId price rentalPrice : string)
| PurchaseItem (itemId : Z)
| RentItem (itemId startTime endTime : Z)
| UpdateItemPrices (itemId : Z) (newPrice newRentalPrice : string)
| DeactivateItem (itemId : Z).

(** The calls that leave the service, in the order they are made. *)
Inductive call : Type :=
| GetAddress
| GetNetwork
| GetBalance (address : string)
| GetCode (address : string)
| EstimateGas (r : request)
| StaticCall (r : request)
| Send (r : request) (overrides : Overrides)
| Wait (tx : Tx).

(** What each call resolves to or rejects with, given the calls made so
    far. *)
Record Signer : Type := mkSigner {
  getAddress : list call -> completion string;
  provider_getNetwork : list call -> completion Network;
  provider_getBalance : list call -> string -> completion Z;
  provider_getCode : list call -> string -> completion string
}.

Record Contract : Type := mkContract {
  target : string;
  estimateGas : list call -> request -> completion Z;
  staticCall : list call -> request -> completion Z;
  send : list call -> request -> Overrides -> completion Tx;
  wait : list call -> Tx -> completion Receipt;
  parseLog : Log -> completion (option LogDescription)
}.

Record ContractService : Type := mkContractService {
  contract : Contract;
  signer : option Signer
}.

(** Asynchronous blocks of the service: the calls made so far are the
    state. *)
Definition S (A : Type) : Type := list call -> completion A * list call.

Definition ret {A} (a : A) : S A := fun h => (Normal a, h).

Definition bind {A B} (m : S A) (k : A -> S B) : S B :=
  fun h =>
    match m h with
    | (Normal a, h') => k a h'
    | (Throw e, h') => (Throw e, h')
    end.

Definition throw {A} (error : js_error) : S A := fun h => (Throw error, h).

Definition try_catch {A} (body : S A) (handler : js_error -> S A) : S A :=
  fun h =>
    match body h with
    | (Normal a, h') => (Normal a, h')
    | (Throw e, h') => handler e h'
    end.

#[global] Instance S_ret : MRet S := @ret.
#[global] Instance S_bind : MBind S := fun A B k m => bind m k.

(** [await] of a call: the call is made, then it resolves or rejects. *)
Definition rpc {A} (c : call) (answer : list call -> completion A) : S A :=
  fun h => (answer h, h ++ [c]).

(** [s.includes(part)] *)
Definition includes (part s : string) : bool :=
  match String.index 0 part s with
  | Some _ => true
  | None => false
  end.

(** The callback of [receipt.logs.find]. *)
Definition is_ItemCreated (c : Contract) (log : Log) : bool :=
  match parseLog c log with
  | Normal (Some parsed) => String.eqb (name parsed) "ItemCreated"
  | _ => false
  end.

(** A JavaScript number that holds an integer, or [NaN]. *)
Inductive number : Type :=
| NaN
| Int (z : Z).

(** [Number(parsed?.args.itemId)] *)
Definition Number_itemId (parsed : option LogDescription) : number :=
  match parsed with
  | Some parsed => Int (Contract.Number (args_itemId parsed))
  | None => NaN
  end.

Definition createItem (this : ContractService)
    (title description blobId price rentalPrice : string) : S number :=
  match signer this with
  | None => throw (JsError "Signer required for creating items")
  | Some signer =>
      let c := contract this in
      let r := CreateItem title description blobId price rentalPrice in
      rpc GetAddress (getAddress signer) ;;
      network ← rpc GetNetwork (provider_getNetwork signer);
      (* Try to get balance, but handle network errors gracefully *)
      try_catch
        (address ← rpc GetAddress (getAddress signer);
         balance ← rpc (GetBalance address)
                       (fun h => provider_getBalance signer h address);
         ret tt)
        (fun _ => ret tt) ;;
      (* Check if contract is deployed *)
      try_catch
        (contractCode ← rpc (GetCode (target c))
                            (fun h => provider_getCode signer h (target c));
         if String.eqb contractCode "0x"
         then throw (JsError ("Contract not deployed at address: " +:+ target c))
         else ret tt)
        (fun _ => ret tt) ;;
      (* Estimate gas first *)
      gasEstimate ←
        try_catch
          (rpc (EstimateGas r) (fun h => estimateGas c h r))
          (fun error =>
             if includes "missing trie node" (error_message error)
                || includes "Internal JSON-RPC error" (error_message error)
             then throw (JsError "0G testnet is experiencing issues. Please try again later or contact 0G support.")
             else throw error);
      (* Add 20% buffer to gas estimate *)
      let gasLimit := (gasEstimate * 120 ÷ 100)%Z in
      (* Try static call first to verify it will work *)
      try_catch
        (rpc (StaticCall r) (fun h => staticCall c h r) ;; ret tt)
        (fun error =>
           throw (JsError ("Contract validation failed: " +:+ error_message error))) ;;
      tx ← rpc (Send r (mkOverrides (Some gasLimit) None))
               (fun h => send c h r (mkOverrides (Some gasLimit) None));
      receipt ← rpc (Wait tx) (fun h => wait c h tx);
      match List.find (is_ItemCreated c) (logs receipt) with
      | Some event =>
          match parseLog c event with
          | Normal parsed => ret (Number_itemId parsed)
          | Throw error => throw error
          end
      | None => throw (JsError "Failed to get item ID from transaction")
      end
  end.

(** [const tx = await this.contract.method(...); await tx.wait()] *)
Definition transact (c : Contract) (r : request) (overrides : Overrides) : S unit :=
  tx ← rpc (Send r overrides) (fun h => send c h r overrides);
  rpc (Wait tx) (fun h => wait c h tx) ;;
  ret tt.

Definition purchaseItem (this : ContractService) (itemId : Z) (value : string)
  : S unit :=
  match signer this with
  | None => throw (JsError "Signer required for purchasing items")
  | Some _ =>
      transact (contract this) (PurchaseItem itemId) (mkOverrides None (Some value))
  end.

Definition rentItem (this : ContractService) (itemId startTime endTime : Z)
    (value : string) : S unit :=
  match signer this with
  | None => throw (JsError "Signer required for renting items")
  | Some signer =>
      rpc GetAddress (getAddress signer) ;;
      transact (contract this) (RentItem itemId startTime endTime)
        (mkOverrides None (Some value))
  end.

Definition updateItemPrices (this : ContractService) (itemId : Z)
    (newPrice newRentalPrice : string) : S unit :=
  match signer this with
  | None => throw (JsError "Signer required for updating prices")
  | Some _ =>
      transact (contract this) (UpdateItemPrices itemId newPrice newRentalPrice)
        (mkOverrides None None)
  end.

Definition deactivateItem (this : ContractService) (itemId : Z) : S unit :=
  match signer this with
  | None => throw (JsError "Signer required for deactivating items")
  | Some _ => transact (contract this) (DeactivateItem itemId) (mkOverrides None None)
  end.

(** A method that sends a transaction, with its arguments. *)
Inductive method : Type :=
| createItem_of (title description blobId price rentalPrice : string)
| purchaseItem_of (itemId : Z) (value : string)
| rentItem_of (itemId startTime endTime : Z) (value : string)
| updateItemPrices_of (itemId : Z) (newPrice newRentalPrice : string)
| deactivateItem_of (itemId : Z).

End Service.

(** The calls a method added, and the transactions among them. *)
Definition calls_since (h h' : list Service.call) : list Service.call :=
  drop (length h) h'.

Definition is_send (c : Service.call) : bool :=
  match c with Service.Send _ _ => true | _ => false end.

(** The calls of a method of the service, whatever it returns. *)
Definition calls_of (this : Service.ContractService) (m : Service.method)
    (h : list Service.call) : list Service.call :=
  match m with
  | Service.createItem_of t d b p r => (Service.createItem this t d b p r h).2
  | Service.purchaseItem_of i v => (Service.purchaseItem this i v h).2
  | Service.rentItem_of i s e v => (Service.rentItem this i s e v h).2
  | Service.updateItemPrices_of i p r => (Service.updateItemPrices this i p r h).2
  | Service.deactivateItem_of i => (Service.deactivateItem this i h).2
  end.

(** The signer with other answers to the balance and code queries. *)
Definition with_checks (signer : Service.Signer)
    (balance : list Service.call -> string -> completion Z)
    (code : list Service.call -> string -> completion string) : Service.Signer :=
  Service.mkSigner (Service.getAddress signer) (Service.provider_getNetwork signer)
    balance code.

(** [createItem] in two parts: the queries before the gas estimate, and
    the rest, from the gas estimate on. *)
Definition preflight (signer : Service.Signer) (c : Service.Contract) : Service.S unit :=
  Service.rpc Service.GetAddress (Service.getAddress signer) ;;
  Service.rpc Service.GetNetwork (Service.provider_getNetwork signer) ;;
  Service.try_catch
    (address ← Service.rpc Service.GetAddress (Service.getAddress signer);
     Service.rpc (Service.GetBalance address)
       (fun h => Service.provider_getBalance signer h address) ;;
     Service.ret tt)
    (fun _ => Service.ret tt) ;;
  Service.try_catch
    (contractCode ← Service.rpc (Service.GetCode (Service.target c))
                      (fun h => Service.provider_getCode signer h (Service.target c));
     if String.eqb contractCode "0x"
     then Service.throw (JsError ("Contract not deployed at address: "
                                    +:+ Service.target c))
     else Service.ret tt)
    (fun _ => Service.ret tt).

(** What [createItem] returns once the transaction is confirmed. *)
Definition created_item (c : Service.Contract) (receipt : Service.Receipt)
  : completion Service.number :=
  match List.find (Service.is_ItemCreated c) (Service.logs receipt) with
  | Some event =>
      match Service.parseLog c event with
      | Normal parsed => Normal (Service.Number_itemId parsed)
      | Throw error => Throw error
      end
  | None => Throw (JsError "Failed to get item ID from transaction")
  end.

(** The error [createItem] throws when the gas estimate fails. *)
Definition estimate_error (error : js_error) : js_error :=
  if Service.includes "missing trie node" (error_message error)
     || Service.includes "Internal JSON-RPC error" (error_message error)
  then JsError "0G testnet is experiencing issues. Please try again later or contact 0G support."
  else error.

Definition transactions_sent (calls : list Service.call) : nat :=
  length (List.filter is_send calls).

(** A signer on a network where the balance query fails and no code is
    deployed at the address of the contract; a contract whose transactions
    are confirmed with the logs given. *)
Definition sample_signer : Service.Signer :=
  Service.mkSigner (fun _ => Normal "0xa11ce")
    (fun _ => Normal (Service.mkNetwork "0g-testnet" 16601))
    (fun _ _ => Throw (JsError "missing trie node"))
    (fun _ _ => Normal "0x").

Definition sample_parseLog (log : Service.Log)
  : completion (option Service.LogDescription) :=
  match Service.topics log with
  | ["ItemCreated"] => Normal (Some (Service.mkLogDescription "ItemCreated" 7))
  | ["Transfer"] => Throw (JsError "no matching event")
  | _ => Normal None
  end.

Definition sample_contract (logs : list Service.Log) : Service.Contract :=
  Service.mkContract "0xc0ffee" (fun _ _ => Normal 100001%Z) (fun _ _ => Normal 7%Z)
    (fun _ _ _ => Normal (Service.mkTx "0x7a"))
    (fun _ _ => Normal (Service.mkReceipt logs))
    sample_parseLog.

Definition sample_service (logs : list Service.Log) : Service.ContractService :=
  Service.mkContractService (sample_contract logs) (Some sample_signer).

(** * Properties *)

(** ** Running blocks *)

Ltac unfold_monad :=
  unfold when, reset, sleep, Uint8Array_of, Buffer_from in *;
  unfold try_catch, mbind, M_bind, bind, mret, M_ret, ret, throw, lift,
    console_log, writeBlob, readBlob, getBlob, emit,
    readFileSync, writeFileSync, unlinkSync, exec, date_now, random_suffix in *.

Lemma events_since_app (w0 w1 : World) (evs : list event) :
  trace w1 = trace w0 ++ evs -> events_since w0 w1 = evs.
Proof.
  intros Htrace. unfold events_since. rewrite Htrace. apply drop_app_length.
Qed.

Lemma events_since_same (w0 w1 : World) :
  trace w1 = trace w0 -> events_since w0 w1 = [].
Proof.
  intros Htrace. apply events_since_app. rewrite Htrace, app_nil_r. reflexivity.
Qed.

Lemma schedule_app (is_attempt : event -> bool) (evs evs' : list event) :
  schedule is_attempt (evs ++ evs') =
  schedule is_attempt evs ++ schedule is_attempt evs'.
Proof.
  induction evs as [| ev evs IH]; [reflexivity |].
  destruct ev; simpl; rewrite IH; try reflexivity;
    match goal with |- context [if ?b then _ else _] => destruct b end;
    reflexivity.
Qed.

(** ** The retry loop *)

Section RetryLoopFacts.
Context {A : Type}.
Variable maxAttempts : nat.
Variable attempt : nat -> M A.
Variable recover : nat -> js_error -> M unit.

Lemma retry_loop_done (attempts : nat) (w : World) :
  maxAttempts <= attempts ->
  retry_loop maxAttempts attempt recover attempts w = (Normal None, w).
Proof.
  intros Hge. rewrite retry_loop_equation_1.
  destruct (lt_dec attempts maxAttempts) as [Hlt | Hnlt]; [lia | reflexivity].
Qed.

Lemma retry_loop_step (attempts : nat) (w : World) :
  attempts < maxAttempts ->
  retry_loop maxAttempts attempt recover attempts w =
  match attempt attempts w with
  | (Normal result, w1) => (Normal (Some result), w1)
  | (Throw error, w1) =>
      match recover (S attempts) error w1 with
      | (Normal _, w2) => retry_loop maxAttempts attempt recover (S attempts) w2
      | (Throw error', w2) => (Throw error', w2)
      end
  end.
Proof.
  intros Hlt. rewrite retry_loop_equation_1.
  destruct (lt_dec attempts maxAttempts) as [Hlt' | Hnlt]; [| lia].
  simpl. unfold_monad.
  destruct (attempt attempts w) as [[result | error] w1]; [reflexivity |].
  destruct (recover (S attempts) error w1) as [[[] | error'] w2]; reflexivity.
Qed.

(** Every run of the loop is one of the runs of [run], provided the two
    blocks behave as the loops of this repository do: an attempt issues one
    network call; the [catch] block resets after a retryable error, then
    waits or gives up. *)
Variable factor : Z.
Variable on_exhausted : option js_error.
Variable succeeded : A -> event -> Prop.
Variable failed : js_error -> event -> Prop.

Hypothesis attempt_spec : forall n w,
  exists ev, trace (attempt n w).2 = trace w ++ [ev] /\
    match (attempt n w).1 with
    | Normal a => succeeded a ev
    | Throw error => failed error ev
    end.

Hypothesis recover_spec : forall n error w,
  trace (recover n error w).2 =
    trace w ++ resets error
      ++ (if (n <? maxAttempts)%nat then [EvSleep (Z.of_nat n * factor)] else []) /\
  (recover n error w).1 =
    if (n <? maxAttempts)%nat then Normal tt
    else match on_exhausted with
         | None => Normal tt
         | Some error' => Throw error'
         end.

Lemma retry_loop_run (n : nat) (w : World) :
  exists evs,
    trace (retry_loop maxAttempts attempt recover n w).2 = trace w ++ evs /\
    run maxAttempts factor on_exhausted succeeded failed n
      (retry_loop maxAttempts attempt recover n w).1 evs.
Proof.
  remember (maxAttempts - n) as left eqn:Hleft.
  revert n w Hleft.
  induction left as [| left IH]; intros n w Hleft.
  - rewrite retry_loop_done by lia. exists []. split.
    + simpl. rewrite app_nil_r. reflexivity.
    + apply run_skip. lia.
  - rewrite retry_loop_step by lia.
    destruct (attempt_spec n w) as (ev & Htrace & Hev).
    destruct (attempt n w) as [[a | error] w1]; simpl in Htrace, Hev.
    + exists [ev]. split; [exact Htrace |]. apply run_success; [lia | exact Hev].
    + destruct (recover_spec (S n) error w1) as [Htrace2 Hres2].
      destruct (recover (S n) error w1) as [c w2]; simpl in Htrace2, Hres2.
      destruct (S n <? maxAttempts)%nat eqn:Hmore.
      * apply Nat.ltb_lt in Hmore. subst c.
        destruct (IH (S n) w2 ltac:(lia)) as (evs & Htrace3 & Hrun).
        exists (ev :: resets error ++ EvSleep (Z.of_nat (S n) * factor) :: evs).
        split.
        -- rewrite Htrace3, Htrace2, Htrace. rewrite <- !app_assoc. reflexivity.
        -- apply run_retry; assumption.
      * apply Nat.ltb_ge in Hmore.
        assert (S n = maxAttempts) as Hlast by lia.
        exists (ev :: resets error). split.
        -- assert (trace w2 = trace w ++ ev :: resets error) as Hw2.
           { rewrite Htrace2, Htrace, app_nil_r, <- app_assoc. reflexivity. }
           subst c. destruct on_exhausted as [error' |]; simpl.
           ++ exact Hw2.
           ++ rewrite retry_loop_done by lia. exact Hw2.
        -- subst c.
           pose proof (run_exhausted maxAttempts factor on_exhausted succeeded
                         failed n error ev Hlast Hev) as Hrun.
           unfold exhausted_result in Hrun.
           destruct on_exhausted as [error' |]; simpl.
           ++ exact Hrun.
           ++ rewrite retry_loop_done by lia. exact Hrun.
Qed.
End RetryLoopFacts.

Ltac invert_run :=
  repeat match goal with
         | H : run _ _ _ _ _ _ _ _ |- _ => inversion H; subst; clear H; try lia
         end;
  unfold write_succeeded, write_failed in *;
  repeat match goal with
         | H : read_succeeded _ _ _ |- _ => destruct H as [? ->]
         | H : read_failed _ _ _ |- _ => destruct H as [-> | [? ->]]
         end;
  subst.

Ltac split_errors :=
  repeat match goal with e : js_error |- _ => destruct e end.

(** ** The upload loops *)

Lemma script_upload_loop_run (env : Env) (fileContents : bytes) (n : nat) (w : World) :
  exists evs,
    trace (retry_loop Script.maxAttempts (Script.upload_attempt env fileContents)
             Script.upload_recover n w).2 = trace w ++ evs /\
    run 3 3000 None (write_succeeded fileContents) (write_failed fileContents) n
      (retry_loop Script.maxAttempts (Script.upload_attempt env fileContents)
         Script.upload_recover n w).1 evs.
Proof.
  apply retry_loop_run.
  - intros k w'. unfold Script.upload_attempt. unfold_monad. cbn.
    destruct (walrus_writeBlob env (trace w') fileContents) as [r | e] eqn:Hw;
      eexists; (split; [reflexivity |]); cbn; rewrite ?Hw; reflexivity.
  - intros k error w'. unfold Script.upload_recover, resets. unfold_monad.
    destruct (is_retryable error), (k <? Script.maxAttempts)%nat eqn:Hk; cbn;
      rewrite ?app_nil_r, <- ?app_assoc; fold Script.maxAttempts; rewrite ?Hk;
      split; reflexivity.
Qed.

Lemma verify_upload_loop_run (env : Env) (pdfContents : bytes) (w : World) :
  exists evs,
    trace (Verify.upload_phase env pdfContents w).2 = trace w ++ evs /\
    run 3 3000 None (write_succeeded pdfContents) (write_failed pdfContents) 0
      (Verify.upload_phase env pdfContents w).1 evs.
Proof.
  apply retry_loop_run.
  - intros k w'. unfold Verify.upload_attempt. unfold_monad. cbn.
    destruct (walrus_writeBlob env (trace w') pdfContents) as [r | e] eqn:Hw;
      eexists; (split; [reflexivity |]); cbn; rewrite ?Hw; reflexivity.
  - intros k error w'. unfold Verify.upload_recover, resets. unfold_monad.
    destruct (is_retryable error), (k <? Verify.maxAttempts)%nat eqn:Hk; cbn;
      rewrite ?app_nil_r, <- ?app_assoc; fold Verify.maxAttempts; rewrite ?Hk;
      split; reflexivity.
Qed.

(** [uploadToWalrus] adds nothing to the effects of its loop. *)
Lemma script_upload_run (env : Env) (filePath : string) (w : World) :
  match fs w !! filePath with
  | None =>
      trace (Script.uploadToWalrus env filePath w).2 = trace w /\
      exists error, (Script.uploadToWalrus env filePath w).1 = Throw error
  | Some fileContents =>
      exists loop_result evs,
        trace (Script.uploadToWalrus env filePath w).2 = trace w ++ evs /\
        run 3 3000 None (write_succeeded fileContents) (write_failed fileContents)
          0 loop_result evs /\
        (Script.uploadToWalrus env filePath w).1 = script_upload_result loop_result
  end.
Proof.
  unfold Script.uploadToWalrus. unfold_monad. cbn [fs stdout trace draws].
  destruct (fs w !! filePath) as [fileContents |] eqn:Hfile.
  - match goal with
    | |- context [retry_loop ?m ?a ?r 0 ?w1] =>
        destruct (script_upload_loop_run env fileContents 0 w1) as (evs & Htrace & Hrun);
        destruct (retry_loop m a r 0 w1) as [loop_result w2]
    end.
    cbn [fst snd trace] in Htrace, Hrun.
    exists loop_result, evs.
    destruct loop_result as [[result |] | error]; cbn [fst snd script_upload_result];
      [destruct (truthy (blobId result)) |..]; cbn [fst snd trace]; auto.
  - cbn. eauto.
Qed.

Lemma upload_run_schedule (blob : bytes) (result : completion (option WriteResult))
    (evs : list event) :
  run 3 3000 None (write_succeeded blob) (write_failed blob) 0 result evs ->
  schedule is_write evs ∈ upload_schedules /\ attempts_made is_write evs <= 3.
Proof.
  intros Hrun. invert_run; split_errors; cbn; unfold upload_schedules;
    (split; [set_solver | lia]).
Qed.

Lemma upload_run_policy (blob : bytes) (result : completion (option WriteResult))
    (evs : list event) (i : nat) (blob' : bytes) (error : js_error) :
  run 3 3000 None (write_succeeded blob) (write_failed blob) 0 result evs ->
  evs !! i = Some (EvWriteBlob blob' (Throw error)) ->
  (is_retryable error = true -> evs !! S i = Some EvReset) /\
  (is_retryable error = false -> evs !! S i <> Some EvReset) /\
  (attempts_made is_write (take (S i) evs) < 3 ->
   exists outcome,
     evs !! (S i + length (resets error)) =
       Some (EvSleep (Z.of_nat (attempts_made is_write (take (S i) evs)) * 3000)) /\
     evs !! (S (S i) + length (resets error)) = Some (EvWriteBlob blob' outcome)).
Proof.
  intros Hrun Hi. invert_run; split_errors; cbn in Hi |- *;
    do 9 (try destruct i as [| i]); cbn in Hi |- *; try discriminate Hi;
    try (injection Hi as <- <-); cbn.
  all: (split; [| split]); intros; try discriminate; try reflexivity; try lia;
    eauto.
Qed.

(** C4. An upload makes at most three network writes, never a fourth, and
    waits [attempt_index * 3000] ms between consecutive attempts: 3 s after
    the first failure, 6 s after the second.  This holds for [uploadToWalrus]
    of the script (which makes no attempt at all when the file cannot be
    read) and for the upload loop of the combined upload and verify script. *)
Theorem upload_at_most_three_attempts (env : Env) (filePath : string)
    (pdfContents : bytes) (w : World) :
  let script := events_since w (Script.uploadToWalrus env filePath w).2 in
  let verify := events_since w (Verify.upload_phase env pdfContents w).2 in
  (script = [] \/ schedule is_write script ∈ upload_schedules) /\
  schedule is_write verify ∈ upload_schedules /\
  attempts_made is_write script <= 3 /\
  attempts_made is_write verify <= 3.
Proof.
  cbn zeta.
  destruct (verify_upload_loop_run env pdfContents w) as (evs & Htrace & Hrun).
  rewrite (events_since_app _ _ _ Htrace).
  destruct (upload_run_schedule _ _ _ Hrun) as [Hshape Hcount].
  pose proof (script_upload_run env filePath w) as Hscript.
  destruct (fs w !! filePath) as [fileContents |].
  - destruct Hscript as (loop_result & evs' & Htrace' & Hrun' & _).
    rewrite (events_since_app _ _ _ Htrace').
    destruct (upload_run_schedule _ _ _ Hrun') as [Hshape' Hcount'].
    auto.
  - destruct Hscript as [Htrace' _].
    rewrite (events_since_same _ _ Htrace'). cbn. repeat split; auto; lia.
Qed.

(** Three retryable errors in a row: three writes, two waits, three resets,
    and the upload fails. *)
Example upload_three_retryable_errors :
  let '(result, w) :=
    Script.uploadToWalrus (scripted_env [transient; transient; transient] [] transient)
      "payload.bin" sample_world in
  result = Throw (JsError "Upload failed after all retries") /\
  trace w = [EvWriteBlob payload transient; EvReset; EvSleep 3000;
             EvWriteBlob payload transient; EvReset; EvSleep 6000;
             EvWriteBlob payload transient; EvReset].
Proof. vm_compute. split; reflexivity. Qed.

(** The payload of five bytes accepted at the first attempt: no wait. *)
Example upload_first_attempt :
  let '(result, w) :=
    Script.uploadToWalrus (scripted_env [] [] transient) "payload.bin" sample_world in
  result = Normal "blob-1" /\
  trace w = [EvWriteBlob payload (Normal (mkWriteResult "blob-1"))].
Proof. vm_compute. split; reflexivity. Qed.

(** C1, as stated, fails: after a write that failed with an error that is
    not retryable, the loop waits and writes again. *)
Lemma upload_continues_after_terminal_error :
  ~ aborts_after_terminal_error
      (events_since sample_world
         (Script.uploadToWalrus (scripted_env [terminal] [] transient)
            "payload.bin" sample_world).2).
Proof.
  intros Habort.
  specialize (Habort 0 2 payload "400 Bad Request"
                (EvWriteBlob payload (Normal (mkWriteResult "blob-1")))).
  discriminate Habort; [vm_compute; reflexivity | lia | vm_compute; reflexivity].
Qed.

(** C1, amended.  In both upload loops, a write that failed with a retryable
    error is followed at once by a reset of the client, before anything else;
    a write that failed with any other error is not followed by a reset; and
    in both cases, unless it was the third attempt, the loop goes on: it
    waits [attempts * 3000] ms and writes the same blob again. *)
Theorem upload_retry_policy (env : Env) (filePath : string) (pdfContents : bytes)
    (w : World) (evs : list event) (i : nat) (blob : bytes) (error : js_error) :
  evs = events_since w (Script.uploadToWalrus env filePath w).2 \/
  evs = events_since w (Verify.upload_phase env pdfContents w).2 ->
  evs !! i = Some (EvWriteBlob blob (Throw error)) ->
  (is_retryable error = true -> evs !! S i = Some EvReset) /\
  (is_retryable error = false -> evs !! S i <> Some EvReset) /\
  (attempts_made is_write (take (S i) evs) < 3 ->
   exists outcome,
     evs !! (S i + length (resets error)) =
       Some (EvSleep (Z.of_nat (attempts_made is_write (take (S i) evs)) * 3000)) /\
     evs !! (S (S i) + length (resets error)) = Some (EvWriteBlob blob outcome)).
Proof.
  intros [-> | ->] Hi.
  - pose proof (script_upload_run env filePath w) as Hscript.
    destruct (fs w !! filePath) as [fileContents |].
    + destruct Hscript as (loop_result & evs & Htrace & Hrun & _).
      rewrite (events_since_app _ _ _ Htrace) in Hi |- *.
      exact (upload_run_policy _ _ _ _ _ _ Hrun Hi).
    + destruct Hscript as [Htrace _].
      rewrite (events_since_same _ _ Htrace) in Hi. discriminate Hi.
  - destruct (verify_upload_loop_run env pdfContents w) as (evs & Htrace & Hrun).
    rewrite (events_since_app _ _ _ Htrace) in Hi |- *.
    exact (upload_run_policy _ _ _ _ _ _ Hrun Hi).
Qed.

Lemma upload_retry_policy_witness :
  let evs :=
    events_since sample_world
      (Script.uploadToWalrus (scripted_env [transient; terminal] [] transient)
         "payload.bin" sample_world).2 in
  (evs !! 1 = Some EvReset /\
   evs !! 2 = Some (EvSleep 3000) /\
   exists outcome, evs !! 3 = Some (EvWriteBlob payload outcome)) /\
  (evs !! 4 <> Some EvReset /\
   evs !! 4 = Some (EvSleep 6000) /\
   exists outcome, evs !! 5 = Some (EvWriteBlob payload outcome)).
Proof.
  cbn zeta. split.
  - destruct (upload_retry_policy
                (scripted_env [transient; terminal] [] transient) "payload.bin" []
                sample_world _ 0 payload
                (RetryableWalrusClientError "connection reset")
                (or_introl eq_refl))
      as (Hreset & _ & Hnext); [vm_compute; reflexivity |].
    destruct Hnext as (outcome & Hwait & Hwrite); [vm_compute; lia |].
    split; [exact (Hreset eq_refl) |]. split; [exact Hwait |].
    exists outcome. exact Hwrite.
  - destruct (upload_retry_policy
                (scripted_env [transient; terminal] [] transient) "payload.bin" []
                sample_world _ 3 payload (JsError "400 Bad Request")
                (or_introl eq_refl))
      as (_ & Hnoreset & Hnext); [vm_compute; reflexivity |].
    destruct Hnext as (outcome & Hwait & Hwrite); [vm_compute; lia |].
    split; [exact (Hnoreset eq_refl) |]. split; [exact Hwait |].
    exists outcome. exact Hwrite.
Defined.

(** ** The retrieval loops *)

Lemma retrieval_attempt_spec (env : Env) (id path : string) (w : World) :
  let block : M unit :=
    retrievedContents ← readBlob env id;
    writeFileSync env path (Buffer_from retrievedContents) in
  exists ev, trace (block w).2 = trace w ++ [ev] /\
    match (block w).1 with
    | Normal a => read_succeeded id a ev
    | Throw error => read_failed id error ev
    end.
Proof.
  cbn zeta. unfold read_succeeded, read_failed. unfold_monad. cbn.
  destruct (walrus_readBlob env (trace w) id) as [data | error] eqn:Hread.
  - destruct (write_fault env path) as [error |]; cbn;
      eexists; (split; [reflexivity |]); eauto.
  - cbn. eexists; (split; [reflexivity |]); eauto.
Qed.

Lemma verify_retrieval_run (env : Env) (id : string) (w : World) :
  exists evs,
    trace (Verify.retrieval_phase env id w).2 = trace w ++ evs /\
    run 3 5000 None (read_succeeded id) (read_failed id) 0
      (Verify.retrieval_phase env id w).1 evs.
Proof.
  apply retry_loop_run.
  - intros k w'. apply retrieval_attempt_spec.
  - intros k error w'. unfold Verify.retrieval_recover, resets. unfold_monad.
    destruct (is_retryable error), (k <? Verify.maxRetrievalAttempts)%nat eqn:Hk; cbn;
      rewrite ?app_nil_r, <- ?app_assoc; fold Verify.maxRetrievalAttempts;
      rewrite ?Hk; split; reflexivity.
Qed.

Lemma check_existence_run (env : Env) (w : World) :
  Retrieve.check_existence env w =
  (Normal tt, mkWorld (fs w) (stdout w) (trace w ++ [EvGetBlob Retrieve.blobId]) (draws w)).
Proof.
  unfold Retrieve.check_existence. unfold_monad.
  destruct (walrus_getBlob env (trace w) Retrieve.blobId) as [[] | error]; reflexivity.
Qed.

Lemma attemptDownload_unfold (env : Env) (w : World) :
  Retrieve.attemptDownload env w =
  match
    retry_loop Retrieve.maxRetrievalAttempts (Retrieve.retrieval_attempt env)
      Retrieve.retrieval_recover 0
      (mkWorld (fs w) (stdout w) (trace w ++ [EvGetBlob Retrieve.blobId]) (draws w))
  with
  | (Normal _, w2) => (Normal tt, w2)
  | (Throw error, w2) => (Throw error, w2)
  end.
Proof.
  unfold Retrieve.attemptDownload, mbind, M_bind, bind.
  rewrite check_existence_run. reflexivity.
Qed.

Lemma standalone_retrieval_run (env : Env) (w : World) :
  exists result evs,
    trace (Retrieve.attemptDownload env w).2 =
      trace w ++ EvGetBlob Retrieve.blobId :: evs /\
    run 2 3000 (Some Retrieve.exhausted) (read_succeeded Retrieve.blobId)
      (read_failed Retrieve.blobId) 0 result evs /\
    (Retrieve.attemptDownload env w).1 =
      match result with
      | Normal _ => Normal tt
      | Throw error => Throw error
      end.
Proof.
  rewrite attemptDownload_unfold.
  set (w1 := mkWorld (fs w) (stdout w) (trace w ++ [EvGetBlob Retrieve.blobId]) (draws w)).
  assert (exists evs,
    trace (retry_loop Retrieve.maxRetrievalAttempts (Retrieve.retrieval_attempt env)
             Retrieve.retrieval_recover 0 w1).2 = trace w1 ++ evs /\
    run 2 3000 (Some Retrieve.exhausted) (read_succeeded Retrieve.blobId)
      (read_failed Retrieve.blobId) 0
      (retry_loop Retrieve.maxRetrievalAttempts (Retrieve.retrieval_attempt env)
         Retrieve.retrieval_recover 0 w1).1 evs) as (evs & Htrace & Hrun).
  { apply retry_loop_run.
    - intros k w'. apply retrieval_attempt_spec.
    - intros k error w'. unfold Retrieve.retrieval_recover, resets. unfold_monad.
      destruct (is_retryable error), (k <? Retrieve.maxRetrievalAttempts)%nat eqn:Hk;
        cbn; rewrite ?app_nil_r, <- ?app_assoc;
        fold Retrieve.maxRetrievalAttempts; rewrite ?Hk; split; reflexivity. }
  destruct (retry_loop Retrieve.maxRetrievalAttempts (Retrieve.retrieval_attempt env)
              Retrieve.retrieval_recover 0 w1) as [result w2].
  cbn [fst snd] in Htrace, Hrun.
  exists result, evs. split; [| split; [exact Hrun |]].
  - destruct result; cbn [snd]; rewrite Htrace; unfold w1; cbn [trace];
      rewrite <- app_assoc; reflexivity.
  - destruct result; reflexivity.
Qed.

Lemma script_download_run (env : Env) (id : string) (w : World) :
  trace (Script.downloadFromWalrus env id w).2 =
    trace w ++ [EvReadBlob id (walrus_readBlob env (trace w) id)] /\
  (Script.downloadFromWalrus env id w).1 = walrus_readBlob env (trace w) id.
Proof.
  unfold Script.downloadFromWalrus. unfold_monad. cbn.
  destruct (walrus_readBlob env (trace w) id); split; reflexivity.
Qed.

Lemma verify_retrieval_shape (id : string) (result : completion (option unit))
    (evs : list event) :
  run 3 5000 None (read_succeeded id) (read_failed id) 0 result evs ->
  schedule is_read evs ∈ verify_retrieval_schedules /\
  reset_after_retryable_read evs.
Proof.
  intros Hrun. invert_run; split_errors; cbn; unfold verify_retrieval_schedules;
    (split; [set_solver |]);
    intros i ? ? Hi;
    do 9 (try destruct i as [| i]); cbn in Hi |- *;
    try discriminate Hi; reflexivity.
Qed.

Lemma standalone_retrieval_shape (id : string) (result : completion (option unit))
    (evs : list event) :
  run 2 3000 (Some Retrieve.exhausted) (read_succeeded id) (read_failed id) 0
    result evs ->
  schedule is_read (EvGetBlob id :: evs) ∈ standalone_retrieval_schedules /\
  reset_after_retryable_read (EvGetBlob id :: evs).
Proof.
  intros Hrun. invert_run; split_errors; cbn;
    unfold standalone_retrieval_schedules;
    (split; [set_solver |]);
    intros i ? ? Hi;
    do 9 (try destruct i as [| i]); cbn in Hi |- *;
    try discriminate Hi; reflexivity.
Qed.

(** C2, as stated, fails: the standalone retrieval script waits 3000 ms, not
    5000 ms, before its second attempt, and the combined upload and verify
    script waits 5000 ms, not 3000 ms. *)
Lemma retrieval_delays_are_swapped :
  ~ delays_follow 5000
      (sleeps (events_since sample_world
                 (Retrieve.attemptDownload (scripted_env [] [transient] transient)
                    sample_world).2)) /\
  ~ delays_follow 3000
      (sleeps (events_since sample_world
                 (Verify.retrieval_phase (scripted_env [] [transient] transient)
                    "blob-1" sample_world).2)).
Proof.
  split; intros Hdelays.
  - specialize (Hdelays 0 3000%Z). discriminate Hdelays. vm_compute. reflexivity.
  - specialize (Hdelays 0 5000%Z). discriminate Hdelays. vm_compute. reflexivity.
Qed.

(** The standalone script stops after two failed attempts. *)
Example standalone_two_attempts :
  let '(result, w) :=
    Retrieve.attemptDownload
      (scripted_env [] [transient; transient; transient] transient) sample_world in
  result = Throw Retrieve.exhausted /\
  trace w = [EvGetBlob Retrieve.blobId;
             EvReadBlob Retrieve.blobId transient; EvReset; EvSleep 3000;
             EvReadBlob Retrieve.blobId transient; EvReset].
Proof. vm_compute. split; reflexivity. Qed.

(** In the combined script a retrieval that fails three times is not an
    error: [main] ends normally. *)
Example verify_exhaustion_only_warns :
  let '(result, w) :=
    Verify.main (scripted_env [] [transient; transient; transient] exit_1) pdf_world in
  result = Normal tt /\
  trace w = [EvWriteBlob payload (Normal (mkWriteResult "blob-1")); EvSleep 8000;
             EvReadBlob "blob-1" transient; EvReset; EvSleep 5000;
             EvReadBlob "blob-1" transient; EvReset; EvSleep 10000;
             EvReadBlob "blob-1" transient; EvReset].
Proof. vm_compute. split; reflexivity. Qed.

(** The standalone script tries its second client when the first has used
    up its attempts, and ends normally even when both have. *)
Example standalone_both_clients :
  let '(result, w) := Retrieve.downloadBlobById offline_env sample_world in
  result = Normal tt /\ attempts_made is_read (trace w) = 4.
Proof. vm_compute. split; reflexivity. Qed.

(** C2, amended.  The combined upload and verify script attempts retrieval
    up to three times and waits [attempt_index * 5000] ms before the next
    attempt; the standalone retrieval script attempts retrieval up to two
    times for a client and waits [attempt_index * 3000] ms; both reset the
    client after a read that failed with a retryable error.  The
    [downloadFromWalrus] of the command line script reads once: no retry, no
    wait, no reset. *)
Theorem retrieval_retry_policy (env : Env) (id : string) (w : World) :
  let verify := events_since w (Verify.retrieval_phase env id w).2 in
  let standalone := events_since w (Retrieve.attemptDownload env w).2 in
  let script := events_since w (Script.downloadFromWalrus env id w).2 in
  (schedule is_read verify ∈ verify_retrieval_schedules /\
   reset_after_retryable_read verify) /\
  (schedule is_read standalone ∈ standalone_retrieval_schedules /\
   reset_after_retryable_read standalone) /\
  script = [EvReadBlob id (walrus_readBlob env (trace w) id)].
Proof.
  cbn zeta. split; [| split].
  - destruct (verify_retrieval_run env id w) as (evs & Htrace & Hrun).
    rewrite (events_since_app _ _ _ Htrace).
    exact (verify_retrieval_shape _ _ _ Hrun).
  - destruct (standalone_retrieval_run env w) as (result & evs & Htrace & Hrun & _).
    rewrite (events_since_app _ _ _ Htrace).
    exact (standalone_retrieval_shape _ _ _ Hrun).
  - apply events_since_app. apply script_download_run.
Qed.

(** ** The library wrapper and the download endpoint *)

Lemma mock_prefix_truthy (blobId : string) :
  String.prefix Lib.mock_prefix blobId = true -> truthy blobId = true.
Proof. destruct blobId; [discriminate | reflexivity]. Qed.

Lemma prefix_append (p s : string) : String.prefix p (p +:+ s) = true.
Proof.
  induction p as [| c p IH].
  - destruct s; reflexivity.
  - change (String c p +:+ s) with (String c (p +:+ s)). simpl.
    destruct (ascii_dec c c) as [_ | Hne]; [exact IH | congruence].
Qed.

Lemma mock_fallback_run (env : Env) (w : World) :
  exists id w',
    Lib.mock_fallback env w = (Normal id, w') /\
    String.prefix Lib.mock_prefix id = true /\
    trace w' = trace w.
Proof.
  unfold Lib.mock_fallback. unfold_monad. cbn.
  eexists _, _. split; [reflexivity |]. split; [apply prefix_append | reflexivity].
Qed.

Lemma lib_mock_download (env : Env) (blobId : string) (w : World) :
  String.prefix Lib.mock_prefix blobId = true ->
  Lib.downloadFromWalrus env blobId w =
    (Throw (JsError "Cannot download mock blob ID"), w).
Proof.
  intros Hmock.
  unfold Lib.downloadFromWalrus, Lib.downloadFromWalrus_try, try_catch.
  unfold Lib.mock_prefix in Hmock. rewrite Hmock. reflexivity.
Qed.

Lemma route_mock_download (env : Env) (blobId : string) (w : World) :
  String.prefix Lib.mock_prefix blobId = true ->
  Route.GET env (Some blobId) w =
    (Normal (Route.json_error "Mock blob ID - file not available for download" 404), w).
Proof.
  intros Hmock. unfold Route.GET, try_catch.
  rewrite (mock_prefix_truthy _ Hmock).
  unfold Lib.mock_prefix in Hmock. rewrite Hmock. reflexivity.
Qed.

(** C3. For every blob id that starts with [mock-blob-], the library's
    [downloadFromWalrus] throws "Cannot download mock blob ID" and the GET
    endpoint answers 404, both at once: the world is left as it was, so no
    child process was started and no network call was made. *)
Theorem mock_download_fails_fast (env : Env) (blobId : string) (w : World) :
  String.prefix Lib.mock_prefix blobId = true ->
  Lib.downloadFromWalrus env blobId w =
    (Throw (JsError "Cannot download mock blob ID"), w) /\
  Route.GET env (Some blobId) w =
    (Normal (Route.json_error "Mock blob ID - file not available for download" 404), w) /\
  events_since w (Lib.downloadFromWalrus env blobId w).2 = [] /\
  events_since w (Route.GET env (Some blobId) w).2 = [].
Proof.
  intros Hmock.
  rewrite (lib_mock_download env blobId w Hmock).
  rewrite (route_mock_download env blobId w Hmock).
  repeat split; apply events_since_same; reflexivity.
Qed.

Lemma mock_download_fails_fast_witness :
  Lib.downloadFromWalrus (scripted_env [] [] transient) "mock-blob-123" sample_world =
    (Throw (JsError "Cannot download mock blob ID"), sample_world) /\
  Route.GET (scripted_env [] [] transient) (Some "mock-blob-123") sample_world =
    (Normal (Route.json_error "Mock blob ID - file not available for download" 404),
     sample_world).
Proof.
  destruct (mock_download_fails_fast (scripted_env [] [] transient) "mock-blob-123"
              sample_world eq_refl) as (Hlib & Hroute & _).
  split; [exact Hlib | exact Hroute].
Defined.

(** C6. The GET endpoint answers 400 when the blob id is absent (undefined
    or empty), 404 when it is a mock id, 500 when the download throws, and
    otherwise 200 with the bytes as they came, [Content-Type:
    application/octet-stream] and a [Content-Disposition] attachment header
    whose file name is [file-] followed by the blob id. *)
Theorem download_endpoint_statuses (env : Env) (blobId : string) (w : World) :
  Route.GET env None w = (Normal (Route.json_error "Blob ID is required" 400), w) /\
  Route.GET env (Some EmptyString) w =
    (Normal (Route.json_error "Blob ID is required" 400), w) /\
  (String.prefix Lib.mock_prefix blobId = true ->
   Route.GET env (Some blobId) w =
     (Normal (Route.json_error "Mock blob ID - file not available for download" 404), w)) /\
  (truthy blobId = true -> String.prefix Lib.mock_prefix blobId = false ->
   match Lib.downloadFromWalrus env blobId w with
   | (Throw _, w1) =>
       Route.GET env (Some blobId) w =
         (Normal (Route.json_error "Failed to download file" 500), w1)
   | (Normal fileContents, w1) =>
       Route.GET env (Some blobId) w =
         (Normal
            (Route.mkResponse 200
               [("Content-Type", "application/octet-stream");
                ("Content-Disposition",
                 "attachment; filename=" +:+ dquote +:+ "file-" +:+ blobId +:+ dquote);
                ("Content-Length", pretty (length fileContents))]
               (Route.Raw fileContents)),
          w1)
   end).
Proof.
  split; [reflexivity |]. split; [reflexivity |]. split.
  - apply route_mock_download.
  - intros Hpresent Hreal. unfold Route.GET, try_catch.
    rewrite Hpresent. unfold Lib.mock_prefix in Hreal. rewrite Hreal. cbn [negb].
    unfold mbind, M_bind, bind.
    destruct (Lib.downloadFromWalrus env blobId w) as [[fileContents | error] w1];
      reflexivity.
Qed.

Lemma download_endpoint_statuses_witness :
  Route.GET (scripted_env [] [] saved) (Some "mock-blob-123") saved_world =
    (Normal (Route.json_error "Mock blob ID - file not available for download" 404),
     saved_world) /\
  (Route.GET (scripted_env [] [] saved) (Some "blob-1") saved_world).1 =
    Normal
      (Route.mkResponse 200
         [("Content-Type", "application/octet-stream");
          ("Content-Disposition",
           "attachment; filename=" +:+ dquote +:+ "file-blob-1" +:+ dquote);
          ("Content-Length", "5")]
         (Route.Raw payload)) /\
  (Route.GET (scripted_env [] [] exit_1) (Some "blob-1") saved_world).1 =
    Normal (Route.json_error "Failed to download file" 500).
Proof.
  destruct (download_endpoint_statuses (scripted_env [] [] saved) "mock-blob-123"
              saved_world) as (_ & _ & Hmock & _).
  destruct (download_endpoint_statuses (scripted_env [] [] saved) "blob-1"
              saved_world) as (_ & _ & _ & Hdone).
  destruct (download_endpoint_statuses (scripted_env [] [] exit_1) "blob-1"
              saved_world) as (_ & _ & _ & Hfail).
  specialize (Hmock eq_refl).
  specialize (Hdone eq_refl eq_refl). specialize (Hfail eq_refl eq_refl).
  split; [exact Hmock |]. split.
  - destruct (Lib.downloadFromWalrus (scripted_env [] [] saved) "blob-1" saved_world)
      as [[fileContents | error] w1] eqn:Hlib; vm_compute in Hlib;
      [| discriminate Hlib].
    injection Hlib as <- <-. rewrite Hdone. reflexivity.
  - destruct (Lib.downloadFromWalrus (scripted_env [] [] exit_1) "blob-1" saved_world)
      as [[fileContents | error] w1] eqn:Hlib; vm_compute in Hlib;
      [discriminate Hlib |].
    rewrite Hfail. reflexivity.
Defined.

(** The [catch] block of the library's [downloadFromWalrus] rethrows: the
    function ends as its [try] block does. *)
Lemma lib_download_rethrows (env : Env) (blobId : string) (w : World) :
  Lib.downloadFromWalrus env blobId w = Lib.downloadFromWalrus_try env blobId w.
Proof.
  unfold Lib.downloadFromWalrus, try_catch, throw.
  destruct (Lib.downloadFromWalrus_try env blobId w) as [[data | error] w1];
    reflexivity.
Qed.

Lemma lib_upload_never_throws (env : Env) (fileContents : bytes) (w : World) :
  exists id w',
    Lib.uploadToWalrus env fileContents w = (Normal id, w') /\
    forall error w1,
      Lib.uploadToWalrus_try env fileContents w = (Throw error, w1) ->
      String.prefix Lib.mock_prefix id = true.
Proof.
  unfold Lib.uploadToWalrus, try_catch.
  destruct (Lib.uploadToWalrus_try env fileContents w) as [[id | error] w1].
  - exists id, w1. split; [reflexivity |]. intros error w2 Habsurd. discriminate Habsurd.
  - destruct (mock_fallback_run env w1) as (id & w' & Hrun & Hprefix & _).
    exists id, w'. split; [exact Hrun |]. intros _ _ _. exact Hprefix.
Qed.

Lemma standalone_only_error (env : Env) (w : World) (error : js_error) :
  (Retrieve.attemptDownload env w).1 = Throw error -> error = Retrieve.exhausted.
Proof.
  destruct (standalone_retrieval_run env w) as (result & evs & _ & Hrun & Hresult).
  rewrite Hresult. intros Hthrown.
  inversion Hrun; subst; try discriminate Hthrown.
  - match goal with H : run _ _ _ _ _ 1 _ _ |- _ => inversion H; subst end;
      try lia; try discriminate Hthrown.
    unfold exhausted_result in Hthrown. congruence.
  - lia.
Qed.

Lemma standalone_exhaustion (env : Env) (w : World) :
  (forall history, exists error,
      walrus_readBlob env history Retrieve.blobId = Throw error) ->
  (Retrieve.attemptDownload env w).1 = Throw Retrieve.exhausted.
Proof.
  intros Hdown. rewrite attemptDownload_unfold.
  do 2 (rewrite retry_loop_step by (unfold Retrieve.maxRetrievalAttempts; lia);
        unfold Retrieve.retrieval_attempt at 1; unfold_monad;
        cbn [trace fs stdout draws];
        match goal with
        | |- context [walrus_readBlob env ?h Retrieve.blobId] =>
            let error := fresh "error" in
            destruct (Hdown h) as [error ->]; destruct error
        end;
        unfold Retrieve.retrieval_recover at 1; unfold_monad;
        cbn [is_retryable Nat.ltb Nat.leb Retrieve.maxRetrievalAttempts trace fs stdout draws]).
  all: reflexivity.
Qed.

Lemma verify_retrieval_result (id : string) (result : completion (option unit))
    (evs : list event) :
  run 3 5000 None (read_succeeded id) (read_failed id) 0 result evs ->
  match result with
  | Normal (Some _) => exists data, last evs = Some (EvReadBlob id (Normal data))
  | Normal None => attempts_made is_read evs = 3
  | Throw _ => False
  end.
Proof.
  intros Hrun. invert_run; split_errors; cbn; eauto.
Qed.

(** [attemptDownload] ends normally only when a read has returned the blob
    and the blob has been saved; otherwise both attempts have been made and
    it throws. *)
Lemma attemptDownload_outcome (env : Env) (w : World) :
  match Retrieve.attemptDownload env w with
  | (Normal _, w') =>
      exists data,
        write_fault env "downloaded_test.pdf" = None /\
        last (events_since w w') = Some (EvReadBlob Retrieve.blobId (Normal data)) /\
        fs w' !! "downloaded_test.pdf" = Some data
  | (Throw error, w') =>
      error = Retrieve.exhausted /\
      attempts_made is_read (events_since w w') = 2
  end.
Proof.
  rewrite attemptDownload_unfold.
  do 2 (try (rewrite retry_loop_step by (unfold Retrieve.maxRetrievalAttempts; lia);
        unfold Retrieve.retrieval_attempt at 1; unfold_monad;
        cbn [trace fs stdout draws];
        match goal with
        | |- context [walrus_readBlob env ?h Retrieve.blobId] =>
            destruct (walrus_readBlob env h Retrieve.blobId) as [? | []];
            [destruct (write_fault env "downloaded_test.pdf") as [[] |] eqn:? |..]
        end;
        cbn [trace fs stdout draws];
        try (unfold Retrieve.retrieval_recover at 1; unfold_monad;
             cbn [is_retryable Nat.ltb Nat.leb Retrieve.maxRetrievalAttempts
                    trace fs stdout draws]))).
  all: try congruence.
  all: unfold events_since; cbn [trace fs]; rewrite <- ?app_assoc;
    rewrite ?drop_app_length; cbn [app].
  all: try (split; reflexivity).
  all: eexists; split; [first [assumption | reflexivity] |];
    split; [reflexivity || (rewrite ?last_app; reflexivity) | apply lookup_insert_eq].
Qed.

Lemma downloadBlobById_ends_normally (env : Env) (w : World) :
  (Retrieve.downloadBlobById env w).1 = Normal tt.
Proof.
  unfold Retrieve.downloadBlobById, try_catch, ret.
  destruct (Retrieve.attemptDownload env w) as [[[] | error] w1]; [reflexivity |].
  destruct (Retrieve.attemptDownload env w1) as [[[] | error'] w2]; reflexivity.
Qed.

(** C5, as stated, fails: a download path that has used up its retries does
    not always throw.  With the network down, the retrieval loop of the
    combined script ends normally after its three reads, and
    [downloadBlobById] ends normally after the four reads of its two
    clients. *)
Lemma download_exhaustion_not_propagated :
  let verify := Verify.retrieval_phase offline_env "blob-1" sample_world in
  let standalone := Retrieve.downloadBlobById offline_env sample_world in
  (verify.1 = Normal None /\
   events_since sample_world verify.2 =
     [EvReadBlob "blob-1" transient; EvReset; EvSleep 5000;
      EvReadBlob "blob-1" transient; EvReset; EvSleep 10000;
      EvReadBlob "blob-1" transient; EvReset]) /\
  (standalone.1 = Normal tt /\
   attempts_made is_read (events_since sample_world standalone.2) = 4).
Proof. vm_compute. repeat split; reflexivity. Qed.

(** C5, amended.  The library's [uploadToWalrus] never throws: whenever its
    [try] block fails, for whatever reason, it returns an id that starts
    with [mock-blob-].  No download path puts a mock result in the place of
    a failure, but not all of them pass the failure on.  The library's
    [downloadFromWalrus], which does not retry, ends exactly as its [try]
    block does.  [attemptDownload] of the standalone script ends normally
    only when a read has returned the blob and the blob has been saved;
    otherwise it has made both its attempts and throws an error whose
    message ends with the blob id, and nothing else; so it does when every
    read fails and when the file cannot be saved.  Its caller
    [downloadBlobById] catches that error and always ends normally, and the
    retrieval loop of the combined script never throws: after three failed
    attempts it ends without a result. *)
Theorem failure_handling_by_path (env : Env) (fileContents : bytes)
    (blobId : string) (w : World) :
  (exists id w',
     Lib.uploadToWalrus env fileContents w = (Normal id, w') /\
     forall error w1,
       Lib.uploadToWalrus_try env fileContents w = (Throw error, w1) ->
       String.prefix Lib.mock_prefix id = true) /\
  Lib.downloadFromWalrus env blobId w = Lib.downloadFromWalrus_try env blobId w /\
  match Retrieve.attemptDownload env w with
  | (Normal _, w') =>
      exists data,
        write_fault env "downloaded_test.pdf" = None /\
        last (events_since w w') = Some (EvReadBlob Retrieve.blobId (Normal data)) /\
        fs w' !! "downloaded_test.pdf" = Some data
  | (Throw error, w') =>
      error = Retrieve.exhausted /\
      attempts_made is_read (events_since w w') = 2
  end /\
  ((forall history, exists error,
       walrus_readBlob env history Retrieve.blobId = Throw error) ->
   (Retrieve.attemptDownload env w).1 = Throw Retrieve.exhausted) /\
  ((exists error, write_fault env "downloaded_test.pdf" = Some error) ->
   (Retrieve.attemptDownload env w).1 = Throw Retrieve.exhausted) /\
  error_message Retrieve.exhausted =
    "All retrieval attempts failed for blob ID: " +:+ Retrieve.blobId /\
  (Retrieve.downloadBlobById env w).1 = Normal tt /\
  match (Verify.retrieval_phase env blobId w).1 with
  | Normal (Some _) =>
      exists data,
        last (events_since w (Verify.retrieval_phase env blobId w).2) =
          Some (EvReadBlob blobId (Normal data))
  | Normal None =>
      attempts_made is_read (events_since w (Verify.retrieval_phase env blobId w).2) = 3
  | Throw _ => False
  end.
Proof.
  split; [apply lib_upload_never_throws |].
  split; [apply lib_download_rethrows |].
  split; [apply attemptDownload_outcome |].
  split; [apply standalone_exhaustion |].
  split.
  { intros [error Hfault]. pose proof (attemptDownload_outcome env w) as Houtcome.
    destruct (Retrieve.attemptDownload env w) as [[[] | error'] w'].
    - destruct Houtcome as (data & Hwritable & _). congruence.
    - destruct Houtcome as [-> _]. reflexivity. }
  split; [reflexivity |].
  split; [apply downloadBlobById_ends_normally |].
  destruct (verify_retrieval_run env blobId w) as (evs & Htrace & Hrun).
  rewrite (events_since_app _ _ _ Htrace).
  exact (verify_retrieval_result _ _ _ Hrun).
Qed.

Lemma failure_handling_by_path_witness :
  (exists id,
     (Lib.uploadToWalrus offline_env payload sample_world).1 = Normal id /\
     String.prefix Lib.mock_prefix id = true) /\
  (Lib.downloadFromWalrus offline_env "blob-1" sample_world).1 =
    Throw (JsError "Command failed: node walrus-upload.js") /\
  (Retrieve.attemptDownload offline_env sample_world).1 = Throw Retrieve.exhausted /\
  (Retrieve.attemptDownload read_only_env sample_world).1 = Throw Retrieve.exhausted.
Proof.
  destruct (failure_handling_by_path offline_env payload "blob-1" sample_world)
    as ((id & w' & Hupload & Hmock) & Hdownload & _ & Hexhausted & _).
  destruct (failure_handling_by_path read_only_env payload "blob-1" sample_world)
    as (_ & _ & _ & _ & Hunsaved & _).
  split; [| split; [| split]].
  - exists id. rewrite Hupload. split; [reflexivity |].
    apply (Hmock (JsError "Command failed: node walrus-upload.js")
             (Lib.uploadToWalrus_try offline_env payload sample_world).2).
    vm_compute. reflexivity.
  - rewrite Hdownload. vm_compute. reflexivity.
  - apply Hexhausted. intros history. eexists. reflexivity.
  - apply Hunsaved. eexists. reflexivity.
Defined.

(** ** Round trip *)

(** Whatever the network does, every write the script issues carries the
    bytes of the file, unchanged. *)
Lemma upload_sends_file_as_is (env : Env) (filePath : string) (B : bytes)
    (w : World) (blob : bytes) (outcome : completion WriteResult) :
  fs w !! filePath = Some B ->
  EvWriteBlob blob outcome ∈ events_since w (Script.uploadToWalrus env filePath w).2 ->
  blob = B.
Proof.
  intros Hfile Hin.
  pose proof (script_upload_run env filePath w) as Hrun. rewrite Hfile in Hrun.
  destruct Hrun as (loop_result & evs & Htrace & Hrun & _).
  rewrite (events_since_app _ _ _ Htrace) in Hin.
  invert_run; split_errors; cbn in Hin;
    repeat match goal with
           | H : _ ∈ _ :: _ |- _ => apply elem_of_cons in H; destruct H as [H | H]
           | H : _ ∈ [] |- _ => apply elem_of_nil in H; destruct H
           | H : EvWriteBlob _ _ = _ |- _ => inversion H; clear H
           end;
    congruence.
Qed.

(** C8. When the network is healthy (writing [B] succeeds and yields a blob
    id, a string that is not empty, and reading that id yields [B]),
    downloading what was uploaded gives back [B] itself, the same bytes in
    the same number; the upload sent [B] as it is, in one write. *)
Theorem upload_download_round_trip (env : Env) (filePath : string) (B : bytes)
    (id : string) (w : World) :
  fs w !! filePath = Some B ->
  truthy id = true ->
  (forall history, walrus_writeBlob env history B = Normal (mkWriteResult id)) ->
  (forall history, walrus_readBlob env history id = Normal B) ->
  exists w',
    (uploaded ← Script.uploadToWalrus env filePath;
     Script.downloadFromWalrus env uploaded) w = (Normal B, w') /\
    events_since w w' =
      [EvWriteBlob B (Normal (mkWriteResult id)); EvReadBlob id (Normal B)].
Proof.
  intros Hfile Hid Hwrite Hread.
  unfold Script.uploadToWalrus, Script.downloadFromWalrus.
  unfold_monad. cbn [fs stdout trace draws]. rewrite Hfile.
  rewrite retry_loop_step by (unfold Script.maxAttempts; lia).
  unfold Script.upload_attempt. unfold_monad. cbn [fs stdout trace draws].
  rewrite Hwrite. cbn [blobId]. rewrite Hid. cbn [fs stdout trace draws].
  rewrite Hread.
  eexists. split; [reflexivity |].
  apply events_since_app. cbn [trace]. rewrite <- app_assoc. reflexivity.
Qed.

Lemma upload_download_round_trip_witness :
  exists w',
    (uploaded ← Script.uploadToWalrus (scripted_env [] [] exit_1) "payload.bin";
     Script.downloadFromWalrus (scripted_env [] [] exit_1) uploaded) sample_world =
    (Normal payload, w').
Proof.
  destruct (upload_download_round_trip (scripted_env [] [] exit_1) "payload.bin"
              payload "blob-1" sample_world) as (w' & Hrun & _).
  - vm_compute. reflexivity.
  - reflexivity.
  - intros history. reflexivity.
  - intros history. reflexivity.
  - exists w'. exact Hrun.
Defined.

(** ** The contract service *)

(** [Number] is exact up to [2^53] and rounds to even beyond. *)
Example Number_rounds :
  Contract.Number 12345 = 12345%Z /\
  Contract.Number (2 ^ 53 + 1) = (2 ^ 53)%Z /\
  Contract.Number (2 ^ 53 + 3) = (2 ^ 53 + 4)%Z.
Proof. vm_compute. repeat split; reflexivity. Qed.

(** C10. The six read-only queries of [ContractService] never pass an error
    on: whatever the contract call does they return a value, and when the
    call fails the value is the neutral one (empty array, false, 0), the
    very value they return when the chain holds nothing. *)
Theorem contract_reads_never_throw (contract empty : Contract.Handle)
    (offset limit : option Z) (userAddress : string) (itemId : Z) :
  ((exists items, Contract.getActiveItems contract offset limit = Normal items) /\
   (exists ids, Contract.getUserItems contract userAddress = Normal ids) /\
   (exists ids, Contract.getUserRentals contract userAddress = Normal ids) /\
   (exists active, Contract.hasActiveRental contract itemId userAddress = Normal active) /\
   (exists total, Contract.getTotalItems contract = Normal total) /\
   (exists total, Contract.getTotalRentals contract = Normal total)) /\
  ((forall error,
      Contract.call_getActiveItems contract (default 0%Z offset) (default 20%Z limit)
        = Throw error ->
      Contract.getActiveItems contract offset limit = Normal []) /\
   (forall error, Contract.call_getUserItems contract userAddress = Throw error ->
      Contract.getUserItems contract userAddress = Normal []) /\
   (forall error, Contract.call_getUserRentals contract userAddress = Throw error ->
      Contract.getUserRentals contract userAddress = Normal []) /\
   (forall error, Contract.call_hasActiveRental contract itemId userAddress = Throw error ->
      Contract.hasActiveRental contract itemId userAddress = Normal false) /\
   (forall error, Contract.call_getTotalItems contract = Throw error ->
      Contract.getTotalItems contract = Normal 0%Z) /\
   (forall error, Contract.call_getTotalRentals contract = Throw error ->
      Contract.getTotalRentals contract = Normal 0%Z)) /\
  (Contract.call_getActiveItems empty (default 0%Z offset) (default 20%Z limit) = Normal [] ->
   Contract.call_getUserItems empty userAddress = Normal [] ->
   Contract.call_getUserRentals empty userAddress = Normal [] ->
   Contract.call_hasActiveRental empty itemId userAddress = Normal false ->
   Contract.call_getTotalItems empty = Normal 0%Z ->
   Contract.call_getTotalRentals empty = Normal 0%Z ->
   Contract.getActiveItems empty offset limit = Normal [] /\
   Contract.getUserItems empty userAddress = Normal [] /\
   Contract.getUserRentals empty userAddress = Normal [] /\
   Contract.hasActiveRental empty itemId userAddress = Normal false /\
   Contract.getTotalItems empty = Normal 0%Z /\
   Contract.getTotalRentals empty = Normal 0%Z).
Proof.
  unfold Contract.getActiveItems, Contract.getUserItems, Contract.getUserRentals,
    Contract.hasActiveRental, Contract.getTotalItems, Contract.getTotalRentals,
    Contract.guarded.
  split; [| split].
  - repeat split;
      match goal with |- context [match ?call with _ => _ end] => destruct call end;
      eauto.
  - repeat split; intros error ->; reflexivity.
  - intros -> -> -> -> -> ->. repeat split; reflexivity.
Qed.

Lemma contract_reads_never_throw_witness :
  Contract.getActiveItems unreachable_contract None None =
    Contract.getActiveItems empty_contract None None /\
  Contract.getUserItems unreachable_contract "0xabc" =
    Contract.getUserItems empty_contract "0xabc" /\
  Contract.getUserRentals unreachable_contract "0xabc" =
    Contract.getUserRentals empty_contract "0xabc" /\
  Contract.hasActiveRental unreachable_contract 7 "0xabc" =
    Contract.hasActiveRental empty_contract 7 "0xabc" /\
  Contract.getTotalItems unreachable_contract = Contract.getTotalItems empty_contract /\
  Contract.getTotalRentals unreachable_contract = Contract.getTotalRentals empty_contract.
Proof.
  destruct (contract_reads_never_throw unreachable_contract empty_contract
              None None "0xabc" 7%Z)
    as (_ & (H1 & H2 & H3 & H4 & H5 & H6) & Hempty).
  destruct (Hempty eq_refl eq_refl eq_refl eq_refl eq_refl eq_refl)
    as (E1 & E2 & E3 & E4 & E5 & E6).
  rewrite (H1 _ eq_refl), (H2 _ eq_refl), (H3 _ eq_refl), (H4 _ eq_refl),
    (H5 _ eq_refl), (H6 _ eq_refl), E1, E2, E3, E4, E5, E6.
  repeat split; reflexivity.
Defined.

(** ** The command line *)

Lemma is_command_true (name : string) (command : option string) :
  Script.is_command name command = true <-> command = Some name.
Proof.
  destruct command as [c |]; cbn.
  - rewrite String.eqb_eq. split; congruence.
  - split; discriminate.
Qed.

Lemma last_snoc2 (lines : list string) (a b : string) :
  last (lines ++ [a; b]) = Some b.
Proof.
  change [a; b] with ([a] ++ [b]). rewrite app_assoc. apply last_snoc.
Qed.

Lemma dispatch_upload (env : Env) (argv : list string) (path : string) (w : World) :
  upload_command argv path ->
  match Script.uploadToWalrus env path w with
  | (Normal blobId, w1) =>
      Script.dispatch env argv w =
        (Normal 0%Z,
         mkWorld (fs w1)
           (stdout w1 ++ ["🎉 Upload completed successfully!"; "Blob ID: " +:+ blobId])
           (trace w1) (draws w1))
  | (Throw _, w1) => Script.dispatch env argv w = (Normal 1%Z, w1)
  end.
Proof.
  intros (Hcommand & Harg & Hpath). unfold Script.dispatch.
  rewrite Hcommand, Harg, Hpath. cbn [Script.is_command String.eqb Ascii.eqb Bool.eqb andb].
  unfold_monad.
  destruct (Script.uploadToWalrus env path w) as [[blobId | error] w1];
    cbn [fs stdout trace draws]; rewrite <- ?app_assoc; reflexivity.
Qed.

Lemma dispatch_download (env : Env) (argv : list string) (id : string) (w : World) :
  download_command argv id ->
  let outputPath := path_join env [dirname env; "downloaded-" +:+ id +:+ ".bin"] in
  match Script.downloadFromWalrus env id w, write_fault env outputPath with
  | (Normal fileContents, w1), None =>
      Script.dispatch env argv w =
        (Normal 0%Z,
         mkWorld (<[outputPath := fileContents]> (fs w1))
           (stdout w1 ++ ["🎉 Download completed successfully!";
                          "File saved to: " +:+ outputPath])
           (trace w1) (draws w1))
  | (Normal _, w1), Some _ => Script.dispatch env argv w = (Normal 1%Z, w1)
  | (Throw _, w1), _ => Script.dispatch env argv w = (Normal 1%Z, w1)
  end.
Proof.
  intros (Hcommand & Harg & Hid). cbn zeta. unfold Script.dispatch.
  rewrite Hcommand, Harg, Hid. cbn [Script.is_command String.eqb Ascii.eqb Bool.eqb andb].
  unfold_monad.
  destruct (Script.downloadFromWalrus env id w) as [[fileContents | error] w1];
    [| reflexivity].
  destruct (write_fault env _); cbn [fs stdout trace draws];
    rewrite <- ?app_assoc; reflexivity.
Qed.

Lemma dispatch_usage (env : Env) (argv : list string) (w : World) :
  (forall path, ~ upload_command argv path) ->
  (forall id, ~ download_command argv id) ->
  Script.dispatch env argv w = (Script.usage ;; mret 1%Z) w.
Proof.
  intros Hupload Hdownload. unfold Script.dispatch.
  destruct (argv !! 3) as [arg |] eqn:Harg; [| reflexivity].
  destruct (Script.is_command "upload" (argv !! 2) && truthy arg) eqn:Hup.
  { apply andb_prop in Hup as [Hcommand Htruthy].
    apply is_command_true in Hcommand.
    destruct (Hupload arg). repeat split; assumption. }
  destruct (Script.is_command "download" (argv !! 2) && truthy arg) eqn:Hdown.
  { apply andb_prop in Hdown as [Hcommand Htruthy].
    apply is_command_true in Hcommand.
    destruct (Hdownload arg). repeat split; assumption. }
  reflexivity.
Qed.

Lemma usage_run (w : World) :
  (Script.usage ;; mret 1%Z) w =
  (Normal 1%Z,
   mkWorld (fs w)
     (stdout w ++ ["Usage:"; "  node walrus-upload.js upload <file-path>";
                   "  node walrus-upload.js download <blob-id>"])
     (trace w) (draws w)).
Proof.
  unfold Script.usage. unfold_monad. cbn [fs stdout trace draws].
  rewrite <- !app_assoc. reflexivity.
Qed.

Lemma dispatch_codes (env : Env) (argv : list string) (w : World) :
  exists code w',
    Script.dispatch env argv w = (Normal code, w') /\
    (code = 0%Z \/ code = 1%Z) /\
    (code = 0%Z ->
     exists line, last (stdout w') = Some line /\
       ((exists path, upload_command argv path /\
                      String.prefix "Blob ID: " line = true) \/
        (exists id, download_command argv id /\
                    String.prefix "File saved to: " line = true))).
Proof.
  assert (forall w1 : World,
            exists code w',
              (Script.usage ;; mret 1%Z) w1 = (Normal code, w') /\
              (code = 0%Z \/ code = 1%Z) /\
              (code = 0%Z -> exists line, last (stdout w') = Some line /\
                 ((exists path, upload_command argv path /\
                                String.prefix "Blob ID: " line = true) \/
                  (exists id, download_command argv id /\
                              String.prefix "File saved to: " line = true))))
    as Husage.
  { intros w1. rewrite usage_run. eexists _, _. split; [reflexivity |].
    split; [right; reflexivity | discriminate]. }
  unfold Script.dispatch.
  destruct (argv !! 3) as [arg |] eqn:Harg; [| apply Husage].
  destruct (Script.is_command "upload" (argv !! 2) && truthy arg) eqn:Hup.
  { apply andb_prop in Hup as [Hcommand Htruthy].
    apply is_command_true in Hcommand.
    assert (upload_command argv arg) as Hcmd by (repeat split; assumption).
    pose proof (dispatch_upload env argv arg w Hcmd) as Hrun.
    unfold Script.dispatch in Hrun. rewrite Harg, Hcommand, Htruthy in Hrun.
    cbn [Script.is_command String.eqb Ascii.eqb Bool.eqb andb] in Hrun.
    destruct (Script.uploadToWalrus env arg w) as [[blobId | error] w1];
      rewrite Hrun; eexists _, _; (split; [reflexivity |]).
    - split; [left; reflexivity |]. intros _. cbn [stdout].
      eexists. split; [apply last_snoc2 |]. left. exists arg.
      split; [exact Hcmd | apply (prefix_append "Blob ID: ")].
    - split; [right; reflexivity | discriminate]. }
  destruct (Script.is_command "download" (argv !! 2) && truthy arg) eqn:Hdown;
    [| apply Husage].
  apply andb_prop in Hdown as [Hcommand Htruthy].
  apply is_command_true in Hcommand.
  assert (download_command argv arg) as Hcmd by (repeat split; assumption).
  pose proof (dispatch_download env argv arg w Hcmd) as Hrun. cbn zeta in Hrun.
  unfold Script.dispatch in Hrun. rewrite Harg, Hcommand, Htruthy in Hrun.
  cbn [Script.is_command String.eqb Ascii.eqb Bool.eqb andb] in Hrun.
  destruct (Script.downloadFromWalrus env arg w) as [[fileContents | error] w1].
  - destruct (write_fault env _); rewrite Hrun; eexists _, _;
      (split; [reflexivity |]).
    + split; [right; reflexivity | discriminate].
    + split; [left; reflexivity |]. intros _. cbn [stdout].
      eexists. split; [apply last_snoc2 |]. right. exists arg.
      split; [exact Hcmd | apply (prefix_append "File saved to: ")].
  - rewrite Hrun. eexists _, _. split; [reflexivity |].
    split; [right; reflexivity | discriminate].
Qed.

(** C9. The command line has two subcommands, [upload <file-path>] and
    [download <blob-id>].  The script always ends with code 0 or 1.  When
    the upload (the download and the saving of the file) succeeds it ends
    with code 0 and the last line it printed is [Blob ID: <id>]
    ([File saved to: <path>]); it ends with code 0 in no other case.  When
    the upload or the download throws, when the subcommand is missing or is
    not one of the two, when its argument is missing, when the signing key
    is missing or cannot be decoded, it ends with code 1. *)
Theorem cli_exit_codes (env : Env) (key : option string) (argv : list string)
    (w : World) :
  (exists code w',
     Script.cli env key argv w = (Normal code, w') /\
     (code = 0%Z \/ code = 1%Z) /\
     (code = 0%Z ->
      exists line, last (stdout w') = Some line /\
        ((exists path, upload_command argv path /\
                       String.prefix "Blob ID: " line = true) \/
         (exists id, download_command argv id /\
                     String.prefix "File saved to: " line = true)))) /\
  (forall secretKey keypair w0,
     key = Some secretKey -> truthy secretKey = true ->
     Script.create_keypair env secretKey w = (Normal keypair, w0) ->
     Script.cli env key argv w = Script.dispatch env argv w0 /\
     (forall path, upload_command argv path ->
        match Script.uploadToWalrus env path w0 with
        | (Normal blobId, w1) =>
            Script.dispatch env argv w0 =
              (Normal 0%Z,
               mkWorld (fs w1)
                 (stdout w1 ++ ["🎉 Upload completed successfully!";
                                "Blob ID: " +:+ blobId])
                 (trace w1) (draws w1))
        | (Throw _, w1) => Script.dispatch env argv w0 = (Normal 1%Z, w1)
        end) /\
     (forall id, download_command argv id ->
        let outputPath := path_join env [dirname env; "downloaded-" +:+ id +:+ ".bin"] in
        match Script.downloadFromWalrus env id w0, write_fault env outputPath with
        | (Normal fileContents, w1), None =>
            Script.dispatch env argv w0 =
              (Normal 0%Z,
               mkWorld (<[outputPath := fileContents]> (fs w1))
                 (stdout w1 ++ ["🎉 Download completed successfully!";
                                "File saved to: " +:+ outputPath])
                 (trace w1) (draws w1))
        | (Normal _, w1), Some _ => Script.dispatch env argv w0 = (Normal 1%Z, w1)
        | (Throw _, w1), _ => Script.dispatch env argv w0 = (Normal 1%Z, w1)
        end) /\
     ((forall path, ~ upload_command argv path) ->
      (forall id, ~ download_command argv id) ->
      exists w1, Script.dispatch env argv w0 = (Normal 1%Z, w1) /\ trace w1 = trace w0)) /\
  (key = None \/ key = Some EmptyString ->
   Script.cli env key argv w = (Normal 1%Z, w)) /\
  (forall secretKey error w0,
     key = Some secretKey -> truthy secretKey = true ->
     Script.create_keypair env secretKey w = (Throw error, w0) ->
     Script.cli env key argv w = (Normal 1%Z, w0)).
Proof.
  split; [| split; [| split]].
  - unfold Script.cli. destruct key as [secretKey |].
    + destruct (truthy secretKey); cbn [negb].
      * destruct (Script.create_keypair env secretKey w) as [[keypair | error] w0].
        -- apply dispatch_codes.
        -- eexists _, _. split; [reflexivity |].
           split; [right; reflexivity | discriminate].
      * eexists _, _. split; [reflexivity |].
        split; [right; reflexivity | discriminate].
    + eexists _, _. split; [reflexivity |].
      split; [right; reflexivity | discriminate].
  - intros secretKey keypair w0 -> Htruthy Hkey. unfold Script.cli.
    rewrite Htruthy. cbn [negb]. rewrite Hkey.
    split; [reflexivity |]. split; [| split].
    + intros path Hcmd. apply dispatch_upload. exact Hcmd.
    + intros id Hcmd. apply dispatch_download. exact Hcmd.
    + intros Hupload Hdownload. rewrite (dispatch_usage _ _ _ Hupload Hdownload).
      rewrite usage_run. eexists. split; reflexivity.
  - intros [-> | ->]; reflexivity.
  - intros secretKey error w0 -> Htruthy Hkey. unfold Script.cli.
    rewrite Htruthy. cbn [negb]. rewrite Hkey. reflexivity.
Qed.

Lemma cli_exit_codes_witness :
  let env := scripted_env [] [] exit_1 in
  let upload := ["node"; "walrus-upload.js"; "upload"; "payload.bin"] in
  let remove := ["node"; "walrus-upload.js"; "remove"; "blob-1"] in
  (Script.cli env (Some prefixed_hex_key) upload sample_world).1 = Normal 0%Z /\
  last (stdout (Script.cli env (Some prefixed_hex_key) upload sample_world).2) =
    Some "Blob ID: blob-1" /\
  (Script.cli env (Some prefixed_hex_key) remove sample_world).1 = Normal 1%Z /\
  Script.cli env None upload sample_world = (Normal 1%Z, sample_world).
Proof.
  cbn zeta.
  set (env := scripted_env [] [] exit_1).
  set (w0 := (Script.create_keypair env prefixed_hex_key sample_world).2).
  assert (Script.create_keypair env prefixed_hex_key sample_world =
            (Normal (Script.mkKeypair sample_key), w0)) as Hkey
    by (vm_compute; reflexivity).
  destruct (cli_exit_codes env (Some prefixed_hex_key)
              ["node"; "walrus-upload.js"; "upload"; "payload.bin"] sample_world)
    as (_ & Hready & _).
  destruct (Hready _ _ _ eq_refl eq_refl Hkey) as (Hcli & Hupload & _).
  specialize (Hupload "payload.bin" (conj eq_refl (conj eq_refl eq_refl))).
  destruct (cli_exit_codes env (Some prefixed_hex_key)
              ["node"; "walrus-upload.js"; "remove"; "blob-1"] sample_world)
    as (_ & Hready' & _).
  destruct (Hready' _ _ _ eq_refl eq_refl Hkey) as (Hcli' & _ & _ & Husage).
  destruct Husage as (w1 & Hrun & _).
  { intros path (Hcommand & _). discriminate Hcommand. }
  { intros id (Hcommand & _). discriminate Hcommand. }
  destruct (cli_exit_codes env None
              ["node"; "walrus-upload.js"; "upload"; "payload.bin"] sample_world)
    as (_ & _ & Hnokey & _).
  destruct (Script.uploadToWalrus env "payload.bin" w0) as [[blobId | error] w2]
    eqn:Hrun2; vm_compute in Hrun2; [| discriminate Hrun2].
  injection Hrun2 as <- <-.
  rewrite Hcli, Hupload, Hcli', Hrun.
  split; [reflexivity |]. split; [reflexivity |]. split; [reflexivity |].
  apply Hnokey. left. reflexivity.
Defined.

(** ** The signing key *)

Lemma create_keypair_result (env : Env) (secretKey : string) (w : World) :
  (Script.create_keypair env secretKey w).1 =
  match decoded_key env secretKey with
  | Normal key => Normal (Script.mkKeypair key)
  | Throw error => Throw error
  end.
Proof.
  unfold Script.create_keypair, decoded_key, fallback_key, checked_length,
    Script.fromSecretKey.
  unfold_monad. cbn [fs stdout trace draws].
  destruct (decodeSuiPrivateKey env secretKey) as [key | error].
  - destruct (length key =? 32)%nat eqn:Hlen; cbn [negb]; [reflexivity |].
    destruct (String.prefix "0x" secretKey).
    + destruct (length (Buffer_from_hex (string_drop 2 secretKey)) =? 32)%nat;
        reflexivity.
    + destruct (length (Buffer_from_base64 secretKey) =? 32)%nat; reflexivity.
  - destruct (String.prefix "0x" secretKey).
    + destruct (length (Buffer_from_hex (string_drop 2 secretKey)) =? 32)%nat;
        reflexivity.
    + destruct (length (Buffer_from_base64 secretKey) =? 32)%nat; reflexivity.
Qed.

(** Only keys of 32 bytes are accepted. *)
Lemma accepted_key_has_32_bytes (env : Env) (secretKey : string) (w : World)
    (keypair : Script.Keypair) :
  (Script.create_keypair env secretKey w).1 = Normal keypair ->
  length (Script.secret keypair) = 32.
Proof.
  rewrite create_keypair_result.
  unfold decoded_key, fallback_key, checked_length.
  repeat match goal with
         | |- context [match decodeSuiPrivateKey ?e ?s with _ => _ end] =>
             destruct (decodeSuiPrivateKey e s)
         | |- context [if (?n =? 32)%nat then _ else _] =>
             destruct (n =? 32)%nat eqn:?
         | |- context [if String.prefix ?p ?s then _ else _] =>
             destruct (String.prefix p s)
         end;
    intros Hkey; try discriminate Hkey; injection Hkey as <-; cbn;
    apply Nat.eqb_eq; assumption.
Qed.

Lemma hex_byte_round_trip (x : Byte.byte) (rest : string) :
  Buffer_from_hex
    (String (hex_digit (Byte.to_N x / 16))
       (String (hex_digit (Byte.to_N x mod 16)) rest)) =
  x :: Buffer_from_hex rest.
Proof. destruct x; reflexivity. Qed.

Lemma hex_round_trip (key : bytes) : Buffer_from_hex (hex_encode key) = key.
Proof.
  induction key as [| x key IH]; [reflexivity |].
  cbn [hex_encode]. rewrite hex_byte_round_trip, IH. reflexivity.
Qed.

(** Two hex digits are two legal base64 characters. *)
Lemma hex_byte_as_base64 (x : Byte.byte) (rest : string) :
  exists a b,
    base64_sextets
      (String (hex_digit (Byte.to_N x / 16))
         (String (hex_digit (Byte.to_N x mod 16)) rest)) =
    a :: b :: base64_sextets rest.
Proof. destruct x; eexists _, _; reflexivity. Qed.

Lemma hex_as_base64_length (key : bytes) :
  length (base64_sextets (hex_encode key)) = 2 * length key.
Proof.
  induction key as [| x key IH]; [reflexivity |].
  cbn [hex_encode].
  destruct (hex_byte_as_base64 x (hex_encode key)) as (a & b & ->).
  cbn [length]. rewrite IH. lia.
Qed.

Lemma base64_groups_length (m : nat) (sextets : list N) :
  length sextets = 4 * m -> length (base64_groups sextets) = 3 * m.
Proof.
  revert sextets. induction m as [| m IH]; intros sextets Hlen.
  - destruct sextets; [reflexivity | discriminate Hlen].
  - destruct sextets as [| a [| b [| c [| d rest]]]]; cbn in Hlen; try lia.
    cbn [base64_groups length]. rewrite (IH rest) by lia. lia.
Qed.

Lemma hex_never_prefixed (key : bytes) : String.prefix "0x" (hex_encode key) = false.
Proof.
  destruct key as [| x key]; [reflexivity |]. destruct x; reflexivity.
Qed.

(** Base64: decoding an encoded key gives the key. *)

Lemma in_all_bytes (x : Byte.byte) : In x all_bytes.
Proof.
  apply (nth_error_In _ (N.to_nat (Byte.to_N x))). destruct x; reflexivity.
Qed.

Lemma for_all_bytes (P : Byte.byte -> bool) :
  forallb P all_bytes = true -> forall x, P x = true.
Proof.
  intros Hall x. rewrite forallb_forall in Hall. apply Hall, in_all_bytes.
Qed.

Lemma for_all_byte_pairs (P : Byte.byte -> Byte.byte -> bool) :
  forallb (fun x => forallb (P x) all_bytes) all_bytes = true ->
  forall x y, P x y = true.
Proof.
  intros Hall x y.
  apply (for_all_bytes (P x)). apply (for_all_bytes _ Hall).
Qed.

Lemma pairs_ok (x y : Byte.byte) : pair_ok x y = true.
Proof. revert x y. apply for_all_byte_pairs. vm_compute. reflexivity. Qed.

Lemma bytes_ok (x : Byte.byte) : byte_ok x = true.
Proof. revert x. apply for_all_bytes. vm_compute. reflexivity. Qed.

Lemma digit_ok_sextets (n : N) (rest : string) :
  digit_ok n = true ->
  base64_sextets (String (base64_digit n) rest) = n :: base64_sextets rest.
Proof.
  unfold digit_ok. cbn [base64_sextets].
  destruct (unbase64 (base64_digit n)) as [m |]; [| discriminate].
  intros Heq. apply N.eqb_eq in Heq. subst m. reflexivity.
Qed.

Lemma byte_eqb_eq (x y : Byte.byte) : Byte.eqb x y = true -> x = y.
Proof. apply Byte.byte_dec_bl. Qed.

Lemma octet1_sextets (x y : Byte.byte) : octet1 (sextet1 x) (sextet2 x y) = x.
Proof.
  pose proof (pairs_ok x y) as Hok. unfold pair_ok in Hok.
  repeat (apply andb_prop in Hok as [Hok ?]). apply byte_eqb_eq. assumption.
Qed.

Lemma octet2_sextets (x y z : Byte.byte) : octet2 (sextet2 x y) (sextet3 y z) = y.
Proof.
  pose proof (pairs_ok x y) as Hxy. pose proof (pairs_ok y z) as Hyz.
  pose proof (bytes_ok y) as Hy.
  unfold pair_ok in Hxy, Hyz. unfold byte_ok in Hy.
  repeat (apply andb_prop in Hxy as [Hxy ?]).
  repeat (apply andb_prop in Hyz as [Hyz ?]).
  repeat (apply andb_prop in Hy as [Hy ?]).
  repeat match goal with H : (_ =? _)%N = true |- _ => apply N.eqb_eq in H end.
  unfold octet2.
  replace (N.land (sextet2 x y) 15) with (N.shiftr (Byte.to_N y) 4) by congruence.
  replace (N.shiftr (sextet3 y z) 2) with (N.land (Byte.to_N y) 15) by congruence.
  apply byte_eqb_eq. assumption.
Qed.

Lemma octet3_sextets (y z : Byte.byte) : octet3 (sextet3 y z) (sextet4 z) = z.
Proof.
  pose proof (pairs_ok y z) as Hyz. pose proof (bytes_ok z) as Hz.
  unfold pair_ok in Hyz. unfold byte_ok in Hz.
  repeat (apply andb_prop in Hyz as [Hyz ?]).
  repeat (apply andb_prop in Hz as [Hz ?]).
  repeat match goal with H : (_ =? _)%N = true |- _ => apply N.eqb_eq in H end.
  unfold octet3.
  replace (N.land (sextet3 y z) 3) with (N.shiftr (Byte.to_N z) 6) by congruence.
  apply byte_eqb_eq. assumption.
Qed.

Lemma sextet_digits (x y : Byte.byte) :
  digit_ok (sextet1 x) = true /\ digit_ok (sextet2 x y) = true /\
  digit_ok (sextet3 x y) = true /\ digit_ok (sextet4 x) = true.
Proof.
  pose proof (pairs_ok x y) as Hxy. pose proof (bytes_ok x) as Hx.
  unfold pair_ok in Hxy. unfold byte_ok in Hx.
  repeat (apply andb_prop in Hxy as [Hxy ?]).
  repeat (apply andb_prop in Hx as [Hx ?]).
  auto.
Qed.

Lemma triples_ind (P : bytes -> Prop) :
  P [] -> (forall x, P [x]) -> (forall x y, P [x; y]) ->
  (forall x y z rest, P rest -> P (x :: y :: z :: rest)) ->
  forall key, P key.
Proof.
  intros Hnil Hone Htwo Hstep.
  assert (forall key, P key /\ (forall x, P (x :: key)) /\ (forall x y, P (x :: y :: key)))
    as Hall.
  { induction key as [| z key (IH0 & IH1 & IH2)].
    - auto.
    - split; [apply IH1 |]. split; [intros x; apply IH2 |].
      intros x y. apply Hstep. exact IH0. }
  intros key. apply Hall.
Qed.

Lemma base64_round_trip (key : bytes) : Buffer_from_base64 (base64_encode key) = key.
Proof.
  unfold Buffer_from_base64.
  induction key as [| x | x y | x y z rest IH] using triples_ind.
  - reflexivity.
  - cbn [base64_encode].
    destruct (sextet_digits x Byte.x00) as (H1 & H2 & _).
    rewrite !digit_ok_sextets by assumption.
    cbn. rewrite octet1_sextets. reflexivity.
  - cbn [base64_encode].
    destruct (sextet_digits x y) as (H1 & H2 & _).
    destruct (sextet_digits y Byte.x00) as (_ & _ & H3 & _).
    rewrite !digit_ok_sextets by assumption.
    cbn. rewrite octet1_sextets, octet2_sextets. reflexivity.
  - cbn [base64_encode].
    destruct (sextet_digits x y) as (H1 & H2 & _).
    destruct (sextet_digits y z) as (_ & _ & H3 & _).
    destruct (sextet_digits z z) as (_ & _ & _ & H4).
    rewrite !digit_ok_sextets by assumption.
    cbn [base64_groups].
    rewrite octet1_sextets, octet2_sextets, octet3_sextets, IH. reflexivity.
Qed.

(** A key written in hex after [0x] is accepted, a key written in base64 is
    accepted unless its text starts with [0x], and a key that the
    network-native decoder accepts is accepted as it is. *)
Lemma prefixed_hex_key_accepted (env : Env) (key : bytes) (error : js_error)
    (w : World) :
  length key = 32 ->
  decodeSuiPrivateKey env ("0x" +:+ hex_encode key) = Throw error ->
  (Script.create_keypair env ("0x" +:+ hex_encode key) w).1 =
    Normal (Script.mkKeypair key).
Proof.
  intros Hlen Hsui. rewrite create_keypair_result. unfold decoded_key. rewrite Hsui.
  unfold fallback_key. rewrite (prefix_append "0x").
  change (string_drop 2 ("0x" +:+ hex_encode key)) with (hex_encode key).
  rewrite hex_round_trip. unfold checked_length. rewrite Hlen. reflexivity.
Qed.

(** A key that the network-native decoder reads as 32 bytes is accepted as
    these bytes; the other formats are not tried. *)
Lemma sui_key_accepted (env : Env) (secretKey : string) (key : bytes) (w : World) :
  length key = 32 ->
  decodeSuiPrivateKey env secretKey = Normal key ->
  (Script.create_keypair env secretKey w).1 = Normal (Script.mkKeypair key).
Proof.
  intros Hlen Hsui. rewrite create_keypair_result. unfold decoded_key.
  rewrite Hsui, Hlen. reflexivity.
Qed.

(** A key of 32 bytes written in base64 that the network-native decoder
    rejects is accepted, and decodes to the same 32 bytes, unless its text
    starts with [0x]: then it is read as hex. *)
Lemma base64_key_accepted (env : Env) (key : bytes) (error : js_error) (w : World) :
  length key = 32 ->
  decodeSuiPrivateKey env (base64_encode key) = Throw error ->
  String.prefix "0x" (base64_encode key) = false ->
  (Script.create_keypair env (base64_encode key) w).1 =
    Normal (Script.mkKeypair key).
Proof.
  intros Hlen Hsui Hprefix. rewrite create_keypair_result. unfold decoded_key.
  rewrite Hsui. unfold fallback_key. rewrite Hprefix, base64_round_trip.
  unfold checked_length. rewrite Hlen. reflexivity.
Qed.

(** The key of the samples in its three forms; in base64, a key whose text
    happens to start with [0x] is read as hex and rejected. *)
Example sample_key_three_forms :
  base64_encode sample_key = base64_key /\
  (Script.create_keypair (scripted_env [] [] exit_1) base64_key sample_world).1 =
    Normal (Script.mkKeypair sample_key) /\
  (Script.create_keypair (scripted_env [] [] exit_1) prefixed_hex_key sample_world).1 =
    Normal (Script.mkKeypair sample_key) /\
  (Script.create_keypair (scripted_env [] [] exit_1) sui_key sample_world).1 =
    Normal (Script.mkKeypair sample_key).
Proof. vm_compute. repeat split; reflexivity. Qed.

Example base64_key_read_as_hex :
  let key := Byte.xd3 :: Byte.x10 :: List.repeat Byte.x00 30 in
  String.prefix "0x" (base64_encode key) = true /\
  Buffer_from_base64 (base64_encode key) = key /\
  (Script.create_keypair (scripted_env [] [] exit_1) (base64_encode key)
     sample_world).1 = Throw (Script.invalid_length 20).
Proof. vm_compute. repeat split; reflexivity. Qed.

(** C7 (broken by the code).  A key of 32 bytes written in plain hex, 64
    digits without [0x], is never decoded as hex: [Buffer.from(s, 'base64')]
    does not throw, so the [catch] that would try hex is never entered; the
    64 digits are read as base64, give 48 bytes, and the key is rejected.
    Read as hex, the same text is the key. *)
Theorem raw_hex_key_rejected (env : Env) (key : bytes) (error : js_error)
    (w : World) :
  length key = 32 ->
  decodeSuiPrivateKey env (hex_encode key) = Throw error ->
  (Script.create_keypair env (hex_encode key) w).1 =
    Throw (Script.invalid_length 48) /\
  Buffer_from_hex (hex_encode key) = key.
Proof.
  intros Hlen Hsui. split; [| apply hex_round_trip].
  rewrite create_keypair_result. unfold decoded_key. rewrite Hsui.
  unfold fallback_key. rewrite hex_never_prefixed.
  unfold checked_length, Buffer_from_base64.
  rewrite (base64_groups_length 16) by (rewrite hex_as_base64_length; lia).
  reflexivity.
Qed.

Lemma raw_hex_key_rejected_witness :
  hex_encode sample_key = raw_hex_key /\
  (Script.create_keypair (scripted_env [] [] exit_1) raw_hex_key sample_world).1 =
    Throw (JsError "Invalid private key length: 48, expected 32") /\
  Buffer_from_hex raw_hex_key = sample_key.
Proof.
  split; [reflexivity |].
  exact (raw_hex_key_rejected (scripted_env [] [] exit_1) sample_key
           (JsError "invalid private key prefix") sample_world eq_refl eq_refl).
Defined.

(** * Further properties *)

(** ** The signing key, continued *)

Lemma accepted_key_has_32_bytes_witness :
  length (Script.secret (Script.mkKeypair sample_key)) = 32.
Proof.
  apply (accepted_key_has_32_bytes (scripted_env [] [] exit_1) prefixed_hex_key
           sample_world).
  vm_compute. reflexivity.
Defined.

Lemma prefixed_hex_key_accepted_witness :
  (Script.create_keypair (scripted_env [] [] exit_1) ("0x" +:+ hex_encode sample_key)
     sample_world).1 = Normal (Script.mkKeypair sample_key).
Proof.
  apply (prefixed_hex_key_accepted (scripted_env [] [] exit_1) sample_key
           (JsError "invalid private key prefix")); reflexivity.
Defined.

Lemma base64_key_accepted_witness :
  (Script.create_keypair (scripted_env [] [] exit_1) (base64_encode sample_key)
     sample_world).1 = Normal (Script.mkKeypair sample_key).
Proof.
  apply (base64_key_accepted (scripted_env [] [] exit_1) sample_key
           (JsError "invalid private key prefix")); reflexivity.
Defined.

Lemma sui_key_accepted_witness :
  (Script.create_keypair (scripted_env [] [] exit_1) sui_key sample_world).1 =
    Normal (Script.mkKeypair sample_key).
Proof.
  apply (sui_key_accepted (scripted_env [] [] exit_1) sui_key sample_key);
    reflexivity.
Defined.

(** ** The upload of the script, continued *)

Lemma upload_sends_file_as_is_witness :
  EvWriteBlob payload transient ∈
    events_since sample_world
      (Script.uploadToWalrus (scripted_env [transient] [] exit_1) "payload.bin"
         sample_world).2 /\
  payload = payload.
Proof.
  assert (EvWriteBlob payload transient ∈
            events_since sample_world
              (Script.uploadToWalrus (scripted_env [transient] [] exit_1)
                 "payload.bin" sample_world).2) as Hin.
  { vm_compute. apply list_elem_of_here. }
  split; [exact Hin |].
  exact (upload_sends_file_as_is (scripted_env [transient] [] exit_1) "payload.bin"
           payload sample_world payload transient eq_refl Hin).
Defined.

Lemma upload_run_success_is_last (blob : bytes)
    (result : completion (option WriteResult)) (evs : list event) (i : nat)
    (blob' : bytes) (r : WriteResult) :
  run 3 3000 None (write_succeeded blob) (write_failed blob) 0 result evs ->
  evs !! i = Some (EvWriteBlob blob' (Normal r)) ->
  length evs = S i /\ result = Normal (Some r).
Proof.
  intros Hrun Hi. invert_run; split_errors; cbn in Hi |- *;
    do 9 (try destruct i as [| i]); cbn in Hi |- *; try discriminate Hi;
    injection Hi as <- <-; split; reflexivity.
Qed.

Lemma upload_run_result (blob : bytes) (result : completion (option WriteResult))
    (evs : list event) :
  run 3 3000 None (write_succeeded blob) (write_failed blob) 0 result evs ->
  match result with
  | Normal (Some r) => last evs = Some (EvWriteBlob blob (Normal r))
  | Normal None =>
      attempts_made is_write evs = 3 /\
      forall i blob' r, evs !! i <> Some (EvWriteBlob blob' (Normal r))
  | Throw _ => False
  end.
Proof.
  intros Hrun. invert_run; split_errors; cbn; try reflexivity;
    (split; [reflexivity |]); intros i blob' r;
    do 9 (try destruct i as [| i]); cbn; discriminate.
Qed.

(** After a write that succeeded the script writes nothing more: that write
    is the last effect of [uploadToWalrus].  Its blob id is what the
    function returns; when that id is empty the function throws "Upload
    failed after all retries", although attempts may remain. *)
Theorem upload_stops_at_first_success (env : Env) (filePath : string) (w : World)
    (i : nat) (blob : bytes) (r : WriteResult) :
  events_since w (Script.uploadToWalrus env filePath w).2 !! i =
    Some (EvWriteBlob blob (Normal r)) ->
  length (events_since w (Script.uploadToWalrus env filePath w).2) = S i /\
  (Script.uploadToWalrus env filePath w).1 =
    if truthy (blobId r) then Normal (blobId r)
    else Throw (JsError "Upload failed after all retries").
Proof.
  intros Hi. pose proof (script_upload_run env filePath w) as Hscript.
  destruct (fs w !! filePath) as [fileContents |].
  - destruct Hscript as (loop_result & evs & Htrace & Hrun & Hresult).
    rewrite (events_since_app _ _ _ Htrace) in Hi |- *.
    destruct (upload_run_success_is_last _ _ _ _ _ _ Hrun Hi) as [Hlast ->].
    split; [exact Hlast |]. rewrite Hresult. reflexivity.
  - destruct Hscript as [Htrace _].
    rewrite (events_since_same _ _ Htrace) in Hi. discriminate Hi.
Qed.

Lemma upload_stops_at_first_success_witness :
  let run :=
    Script.uploadToWalrus
      (scripted_env [transient; Normal (mkWriteResult EmptyString)] [] exit_1)
      "payload.bin" sample_world in
  length (events_since sample_world run.2) = 4 /\
  run.1 = Throw (JsError "Upload failed after all retries").
Proof.
  cbn zeta.
  apply (upload_stops_at_first_success
           (scripted_env [transient; Normal (mkWriteResult EmptyString)] [] exit_1)
           "payload.bin" sample_world 3 payload (mkWriteResult EmptyString)).
  vm_compute. reflexivity.
Defined.

(** [uploadToWalrus] returns an id only when its last effect is a write of
    the file that succeeded with that id, and the id is not empty; when it
    throws with the file readable, either that write carried an empty id or
    three writes were made and none succeeded. *)
Theorem upload_returns_assigned_id (env : Env) (filePath : string)
    (fileContents : bytes) (w : World) :
  fs w !! filePath = Some fileContents ->
  match (Script.uploadToWalrus env filePath w).1 with
  | Normal id =>
      truthy id = true /\
      last (events_since w (Script.uploadToWalrus env filePath w).2) =
        Some (EvWriteBlob fileContents (Normal (mkWriteResult id)))
  | Throw _ =>
      last (events_since w (Script.uploadToWalrus env filePath w).2) =
        Some (EvWriteBlob fileContents (Normal (mkWriteResult EmptyString))) \/
      (attempts_made is_write
         (events_since w (Script.uploadToWalrus env filePath w).2) = 3 /\
       forall i blob r,
         events_since w (Script.uploadToWalrus env filePath w).2 !! i <>
           Some (EvWriteBlob blob (Normal r)))
  end.
Proof.
  intros Hfile. pose proof (script_upload_run env filePath w) as Hscript.
  rewrite Hfile in Hscript.
  destruct Hscript as (loop_result & evs & Htrace & Hrun & Hresult).
  rewrite (events_since_app _ _ _ Htrace), Hresult.
  pose proof (upload_run_result _ _ _ Hrun) as Hshape.
  destruct loop_result as [[[id] |] | error]; cbn [script_upload_result blobId].
  - destruct (truthy id) eqn:Hid.
    + split; [exact Hid | exact Hshape].
    + left. destruct id; [exact Hshape | discriminate Hid].
  - right. exact Hshape.
  - destruct Hshape.
Qed.

Lemma upload_returns_assigned_id_witness :
  last (events_since sample_world
          (Script.uploadToWalrus (scripted_env [transient; terminal] [] exit_1)
             "payload.bin" sample_world).2) =
    Some (EvWriteBlob payload (Normal (mkWriteResult "blob-1"))).
Proof.
  pose proof (upload_returns_assigned_id (scripted_env [transient; terminal] [] exit_1)
                "payload.bin" payload sample_world eq_refl) as Hid.
  destruct (Script.uploadToWalrus (scripted_env [transient; terminal] [] exit_1)
              "payload.bin" sample_world).1 as [id | error] eqn:Hrun;
    vm_compute in Hrun; [| discriminate Hrun].
  injection Hrun as <-. apply Hid.
Defined.

(** ** The library wrapper, continued *)

Lemma no_newline_app (a b : string) :
  no_newline (a +:+ b) = no_newline a && no_newline b.
Proof.
  induction a as [| c a IH]; [reflexivity |].
  change (String c a +:+ b) with (String c (a +:+ b)). cbn [no_newline].
  rewrite IH, andb_assoc. reflexivity.
Qed.

Lemma split_on_line (line rest : string) :
  no_newline line = true ->
  split_on newline (line +:+ String newline rest) = line :: split_on newline rest.
Proof.
  induction line as [| c line IH]; intros Hline.
  - reflexivity.
  - cbn [no_newline] in Hline. apply andb_prop in Hline as [Hc Hline].
    change (String c line +:+ String newline rest)
      with (String c (line +:+ String newline rest)).
    cbn [split_on]. apply negb_true_iff in Hc. rewrite Hc, (IH Hline). reflexivity.
Qed.

Lemma append_assoc (a b c : string) : (a +:+ b) +:+ c = a +:+ (b +:+ c).
Proof.
  induction a as [| x a IH]; [reflexivity |].
  change (String x a +:+ b) with (String x (a +:+ b)).
  change (String x (a +:+ b) +:+ c) with (String x ((a +:+ b) +:+ c)).
  rewrite IH. reflexivity.
Qed.

Lemma output_app (lines lines' : list string) :
  output (lines ++ lines') = output lines +:+ output lines'.
Proof.
  induction lines as [| line lines IH]; [reflexivity |].
  cbn [app]. unfold output in *. cbn [foldr]. rewrite IH, append_assoc. reflexivity.
Qed.

Lemma output_cons_append (line : string) (lines : list string) (tail : string) :
  output (line :: lines) +:+ tail = line +:+ String newline (output lines +:+ tail).
Proof. unfold output. cbn [foldr]. rewrite append_assoc. reflexivity. Qed.

(** The parser finds the first line that starts with the prefix. *)
Lemma find_line_first (prefix : string) (before : list string)
    (rest tail : string) :
  Forall (fun line => passed_over prefix line = true) before ->
  no_newline (prefix +:+ rest) = true ->
  Lib.find_line prefix (output (before ++ [prefix +:+ rest]) +:+ tail) =
    Some (prefix +:+ rest).
Proof.
  intros Hbefore Hline. unfold Lib.find_line.
  induction Hbefore as [| line before Hquiet _ IH]; cbn [app];
    rewrite output_cons_append.
  - rewrite split_on_line by exact Hline.
    cbn [find]. rewrite prefix_append. reflexivity.
  - unfold passed_over in Hquiet. apply andb_prop in Hquiet as [Hnl Hprefix].
    apply negb_true_iff in Hprefix.
    rewrite split_on_line by exact Hnl.
    cbn [find]. rewrite Hprefix. exact IH.
Qed.

Lemma replace_first_prefix (prefix s : string) :
  String.prefix prefix s = true ->
  replace_first prefix EmptyString s = string_drop (String.length prefix) s.
Proof.
  intros Hprefix. unfold replace_first.
  assert (String.index 0 prefix s = Some 0) as ->.
  { destruct s as [| c s]; cbn.
    - destruct prefix; [reflexivity | discriminate Hprefix].
    - cbn in Hprefix. rewrite Hprefix. reflexivity. }
  destruct s; reflexivity.
Qed.

Lemma string_drop_append (prefix s : string) :
  string_drop (String.length prefix) (prefix +:+ s) = s.
Proof. induction prefix as [| c prefix IH]; [reflexivity | exact IH]. Qed.

(** [trim] removes white space beyond ASCII too: here a no-break space
    (U+00A0), a line separator (U+2028) and a byte order mark (U+FEFF). *)
Example trim_removes_unicode_white_space :
  let nbsp := String (ascii_of_nat 194) (String (ascii_of_nat 160) EmptyString) in
  let line_separator :=
    String (ascii_of_nat 226)
      (String (ascii_of_nat 128) (String (ascii_of_nat 168) EmptyString)) in
  let bom :=
    String (ascii_of_nat 239)
      (String (ascii_of_nat 187) (String (ascii_of_nat 191) EmptyString)) in
  trim (nbsp +:+ " id-7" +:+ line_separator +:+ bom +:+ nbsp) = "id-7".
Proof. reflexivity. Qed.

(** [uploadToWalrus]'s [try] block, step by step. *)
Lemma lib_upload_try_run (env : Env) (fileContents : bytes) (w : World) :
  let tempFile := upload_temp_file env w in
  let command := Lib.script_command env "upload" tempFile in
  Lib.uploadToWalrus_try env fileContents w =
  match write_fault env tempFile with
  | Some error =>
      (Throw error, mkWorld (fs w) (stdout w) (trace w) (S (S (draws w))))
  | None =>
      match execAsync env (trace w) (<[tempFile := fileContents]> (fs w)) command with
      | (Normal (out, _), files) =>
          (match Lib.find_line "Blob ID:" out with
           | None => Throw (JsError "Could not extract blob ID from script output")
           | Some blobIdLine =>
               Normal (trim (replace_first "Blob ID:" EmptyString blobIdLine))
           end,
           mkWorld (delete tempFile files) (stdout w) (trace w ++ [EvExec command])
             (S (S (draws w))))
      | (Throw error, files) =>
          (Throw error,
           mkWorld files (stdout w) (trace w ++ [EvExec command]) (S (S (draws w))))
      end
  end.
Proof.
  cbn zeta. unfold Lib.uploadToWalrus_try, upload_temp_file. unfold_monad.
  cbn [fs stdout trace draws].
  destruct (write_fault env _) as [error |]; [reflexivity |].
  cbn [fs stdout trace draws].
  destruct (execAsync env _ _ _) as [[[out err] | error] files];
    cbn [fs stdout trace draws]; [| reflexivity].
  destruct (files !! _) eqn:Hfile; cbn [fs stdout trace draws].
  - destruct (Lib.find_line "Blob ID:" out); reflexivity.
  - rewrite (delete_id _ _ Hfile). destruct (Lib.find_line "Blob ID:" out); reflexivity.
Qed.

Lemma lib_upload_run (env : Env) (fileContents : bytes) (w : World) :
  match Lib.uploadToWalrus_try env fileContents w with
  | (Normal id, w1) => Lib.uploadToWalrus env fileContents w = (Normal id, w1)
  | (Throw _, w1) =>
      fs (Lib.uploadToWalrus env fileContents w).2 = fs w1 /\
      trace (Lib.uploadToWalrus env fileContents w).2 = trace w1
  end.
Proof.
  unfold Lib.uploadToWalrus, try_catch.
  destruct (Lib.uploadToWalrus_try env fileContents w) as [[id | error] w1];
    [reflexivity |].
  unfold Lib.mock_fallback. unfold_monad. split; reflexivity.
Qed.

(** The temporary file of [uploadToWalrus] is removed when the child process
    completes, whether or not a blob id is found in its output; when the
    child process fails, the file is not removed: the files are left as the
    child left them. *)
Theorem lib_upload_temp_file_fate (env : Env) (fileContents : bytes) (w : World) :
  write_fault env (upload_temp_file env w) = None ->
  let tempFile := upload_temp_file env w in
  let child :=
    execAsync env (trace w) (<[tempFile := fileContents]> (fs w))
      (Lib.script_command env "upload" tempFile) in
  match child.1 with
  | Normal _ =>
      fs (Lib.uploadToWalrus env fileContents w).2 = delete tempFile child.2 /\
      fs (Lib.uploadToWalrus env fileContents w).2 !! tempFile = None
  | Throw _ =>
      fs (Lib.uploadToWalrus env fileContents w).2 = child.2 /\
      (child.2 = <[tempFile := fileContents]> (fs w) ->
       fs (Lib.uploadToWalrus env fileContents w).2 !! tempFile = Some fileContents)
  end.
Proof.
  intros Hwritable. cbn zeta.
  pose proof (lib_upload_run env fileContents w) as Hrun.
  rewrite lib_upload_try_run in Hrun. cbn zeta in Hrun. rewrite Hwritable in Hrun.
  destruct (execAsync env _ _ _) as [[[out err] | error] files]; cbn [fst snd].
  - assert (fs (Lib.uploadToWalrus env fileContents w).2 =
              delete (upload_temp_file env w) files) as ->.
    { destruct (Lib.find_line "Blob ID:" out).
      - rewrite Hrun. reflexivity.
      - apply Hrun. }
    split; [reflexivity | apply lookup_delete_eq].
  - destruct Hrun as [-> _]. cbn [fs]. split; [reflexivity |].
    intros ->. apply lookup_insert_eq.
Qed.

Lemma lib_upload_temp_file_fate_witness :
  fs (Lib.uploadToWalrus (scripted_env [] [] exit_1) payload sample_world).2
    !! upload_temp_file (scripted_env [] [] exit_1) sample_world = Some payload /\
  fs (Lib.uploadToWalrus (scripted_env [] [] uploaded) payload sample_world).2
    !! upload_temp_file (scripted_env [] [] uploaded) sample_world = None.
Proof.
  split.
  - apply (lib_upload_temp_file_fate (scripted_env [] [] exit_1) payload sample_world
             eq_refl).
    reflexivity.
  - apply (lib_upload_temp_file_fate (scripted_env [] [] uploaded) payload sample_world
             eq_refl).
Defined.

(** [uploadToWalrus] returns what follows [Blob ID:] on the first line of the
    child's output that starts so, without the white space around it. *)
Theorem lib_upload_reads_first_blob_id_line (env : Env) (fileContents : bytes)
    (w : World) (before : list string) (rest tail err : string)
    (files : gmap string bytes) :
  write_fault env (upload_temp_file env w) = None ->
  execAsync env (trace w) (<[upload_temp_file env w := fileContents]> (fs w))
    (Lib.script_command env "upload" (upload_temp_file env w)) =
    (Normal (output (before ++ ["Blob ID:" +:+ rest]) +:+ tail, err), files) ->
  Forall (fun line => passed_over "Blob ID:" line = true) before ->
  no_newline rest = true ->
  (Lib.uploadToWalrus env fileContents w).1 = Normal (trim rest).
Proof.
  intros Hwritable Hchild Hbefore Hrest.
  pose proof (lib_upload_run env fileContents w) as Hrun.
  rewrite lib_upload_try_run in Hrun. cbn zeta in Hrun.
  rewrite Hwritable, Hchild in Hrun.
  rewrite (find_line_first "Blob ID:" before rest tail Hbefore) in Hrun
    by (rewrite no_newline_app, Hrest; reflexivity).
  rewrite Hrun. cbn [fst].
  rewrite replace_first_prefix by apply prefix_append.
  rewrite string_drop_append. reflexivity.
Qed.

Lemma lib_upload_reads_first_blob_id_line_witness :
  (Lib.uploadToWalrus (scripted_env [] [] uploaded) payload sample_world).1 =
    Normal "blob-1".
Proof.
  apply (lib_upload_reads_first_blob_id_line (scripted_env [] [] uploaded) payload
           sample_world
           ["🚀 Starting Walrus upload...";
            "🎉 Walrus upload successful! Blob ID: blob-1";
            "🎉 Upload completed successfully!"]
           " blob-1" EmptyString EmptyString
           (<[upload_temp_file (scripted_env [] [] uploaded) sample_world := payload]>
              (fs sample_world))).
  - reflexivity.
  - reflexivity.
  - repeat constructor.
  - reflexivity.
Defined.

(** [downloadFromWalrus] returns the bytes of the file that the child's
    output names after [File saved to:], and removes that file; when there
    is no such file it throws. *)
Theorem lib_download_returns_saved_file (env : Env) (blobId : string) (w : World)
    (before : list string) (path tail err : string) (files : gmap string bytes) :
  String.prefix Lib.mock_prefix blobId = false ->
  execAsync env (trace w) (fs w) (Lib.script_command env "download" blobId) =
    (Normal (output (before ++ ["File saved to:" +:+ path]) +:+ tail, err), files) ->
  Forall (fun line => passed_over "File saved to:" line = true) before ->
  no_newline path = true ->
  match files !! trim path with
  | Some data =>
      Lib.downloadFromWalrus env blobId w =
        (Normal data,
         mkWorld (delete (trim path) files) (stdout w)
           (trace w ++ [EvExec (Lib.script_command env "download" blobId)]) (draws w))
  | None => exists error, (Lib.downloadFromWalrus env blobId w).1 = Throw error
  end.
Proof.
  intros Hreal Hchild Hbefore Hpath.
  rewrite lib_download_rethrows. unfold Lib.downloadFromWalrus_try.
  unfold Lib.mock_prefix in Hreal. rewrite Hreal.
  unfold_monad. rewrite Hchild.
  rewrite (find_line_first "File saved to:" before path tail Hbefore)
    by (rewrite no_newline_app, Hpath; reflexivity).
  rewrite replace_first_prefix by apply prefix_append.
  rewrite string_drop_append. cbn [fs stdout trace draws].
  destruct (files !! trim path) as [data |] eqn:Hfile; cbn [fs stdout trace draws].
  - rewrite Hfile. reflexivity.
  - eexists. reflexivity.
Qed.

Lemma lib_download_returns_saved_file_witness :
  (Lib.downloadFromWalrus (scripted_env [] [] saved) "blob-1" saved_world).1 =
    Normal payload /\
  fs (Lib.downloadFromWalrus (scripted_env [] [] saved) "blob-1" saved_world).2
    !! "/app/scripts/downloaded-blob-1.bin" = None.
Proof.
  pose proof (lib_download_returns_saved_file (scripted_env [] [] saved) "blob-1"
                saved_world ["🎉 Download completed successfully!"]
                " /app/scripts/downloaded-blob-1.bin" EmptyString EmptyString
                (fs saved_world) eq_refl eq_refl
                ltac:(repeat constructor) eq_refl) as Hrun.
  change (fs saved_world !! trim " /app/scripts/downloaded-blob-1.bin")
    with (Some payload) in Hrun.
  rewrite Hrun. split; [reflexivity | apply lookup_delete_eq].
Defined.

(** What a failed upload returns is refused by the download and by the
    endpoint at once, before any child process is started. *)
Theorem failed_upload_id_is_refused (env : Env) (fileContents : bytes)
    (w w1 w2 : World) (error : js_error) (id : string) :
  Lib.uploadToWalrus_try env fileContents w = (Throw error, w1) ->
  (Lib.uploadToWalrus env fileContents w).1 = Normal id ->
  Lib.downloadFromWalrus env id w2 =
    (Throw (JsError "Cannot download mock blob ID"), w2) /\
  Route.GET env (Some id) w2 =
    (Normal (Route.json_error "Mock blob ID - file not available for download" 404), w2).
Proof.
  intros Hfailed Hid.
  destruct (lib_upload_never_throws env fileContents w) as (id' & w' & Hrun & Hmock).
  rewrite Hrun in Hid. injection Hid as ->.
  specialize (Hmock _ _ Hfailed).
  split; [apply lib_mock_download | apply route_mock_download]; exact Hmock.
Qed.

Lemma failed_upload_id_is_refused_witness :
  exists id,
    (Lib.uploadToWalrus offline_env payload sample_world).1 = Normal id /\
    Route.GET offline_env (Some id) saved_world =
      (Normal (Route.json_error "Mock blob ID - file not available for download" 404),
       saved_world).
Proof.
  destruct (Lib.uploadToWalrus offline_env payload sample_world).1 as [id | error]
    eqn:Hrun; vm_compute in Hrun; [| discriminate Hrun].
  exists id. split; [reflexivity |].
  apply (failed_upload_id_is_refused offline_env payload sample_world
           (Lib.uploadToWalrus_try offline_env payload sample_world).2 saved_world
           (JsError "Command failed: node walrus-upload.js") id).
  - vm_compute. reflexivity.
  - vm_compute. exact Hrun.
Defined.

(** ** The two diagnostic scripts, continued *)

Lemma run_never_throws {A : Type} (maxAttempts : nat) (factor : Z)
    (succeeded : A -> event -> Prop) (failed : js_error -> event -> Prop)
    (n : nat) (result : completion (option A)) (evs : list event) :
  run maxAttempts factor None succeeded failed n result evs ->
  exists value, result = Normal value.
Proof.
  induction 1 as [| | n error ev result evs _ _ _ IH |]; eauto.
Qed.

(** [main] of the combined script never throws.  Without [./test.pdf] it
    has no effect.  Otherwise it runs the upload loop; only when that loop
    ends with a blob id that is not empty does it wait 8 s and run the
    retrieval loop, on that id. *)
Theorem verify_main_shape (env : Env) (w : World) :
  (Verify.main env w).1 = Normal tt /\
  match fs w !! "./test.pdf" with
  | None => events_since w (Verify.main env w).2 = []
  | Some pdfContents =>
      exists uploaded_result upload_events,
        run 3 3000 None (write_succeeded pdfContents) (write_failed pdfContents) 0
          uploaded_result upload_events /\
        match uploaded_result with
        | Normal (Some result) =>
            if truthy (blobId result) then
              exists retrieved_result retrieval_events,
                run 3 5000 None (read_succeeded (blobId result))
                  (read_failed (blobId result)) 0 retrieved_result retrieval_events /\
                events_since w (Verify.main env w).2 =
                  upload_events ++ EvSleep 8000 :: retrieval_events
            else events_since w (Verify.main env w).2 = upload_events
        | _ => events_since w (Verify.main env w).2 = upload_events
        end
  end.
Proof.
  unfold Verify.main. unfold mbind, M_bind. unfold bind at 1 3 5.
  unfold try_catch, mbind, M_bind, bind, readFileSync, ret.
  destruct (fs w !! "./test.pdf") as [pdfContents |] eqn:Hfile.
  2:{ split; [reflexivity |]. apply events_since_same. reflexivity. }
  destruct (verify_upload_loop_run env pdfContents w) as (evs & Htrace & Hrun).
  destruct (run_never_throws _ _ _ _ _ _ _ Hrun) as [value Hvalue].
  destruct (Verify.upload_phase env pdfContents w) as [uploaded_result w1].
  cbn [fst snd] in Htrace, Hrun, Hvalue. subst uploaded_result.
  destruct value as [result |].
  2:{ split; [reflexivity |]. exists (Normal None), evs.
      split; [exact Hrun |]. apply events_since_app. exact Htrace. }
  destruct (truthy (blobId result)) eqn:Hid.
  2:{ split; [reflexivity |]. exists (Normal (Some result)), evs.
      split; [exact Hrun |]. rewrite Hid. apply events_since_app. exact Htrace. }
  unfold sleep, emit.
  set (w2 := mkWorld (fs w1) (stdout w1) (trace w1 ++ [EvSleep 8000]) (draws w1)).
  destruct (verify_retrieval_run env (blobId result) w2) as (evs' & Htrace' & Hrun').
  destruct (run_never_throws _ _ _ _ _ _ _ Hrun') as [value' Hvalue'].
  destruct (Verify.retrieval_phase env (blobId result) w2) as [retrieved_result w3].
  cbn [fst snd] in Htrace', Hrun', Hvalue'. subst retrieved_result.
  split; [reflexivity |]. exists (Normal (Some result)), evs.
  split; [exact Hrun |]. rewrite Hid. exists (Normal value'), evs'.
  split; [exact Hrun' |]. apply events_since_app. cbn [snd].
  rewrite Htrace'. unfold w2. cbn [trace]. rewrite Htrace, <- !app_assoc. reflexivity.
Qed.

Lemma standalone_run_reads (id : string) (result : completion (option unit))
    (evs : list event) :
  run 2 3000 (Some Retrieve.exhausted) (read_succeeded id) (read_failed id) 0
    result evs ->
  attempts_made is_read (EvGetBlob id :: evs) <= 2 /\
  (forall error, result = Throw error ->
     attempts_made is_read (EvGetBlob id :: evs) = 2).
Proof.
  intros Hrun. invert_run; split_errors; cbn; (split; [lia |]);
    intros error' Hthrown; try discriminate Hthrown; reflexivity.
Qed.

Lemma attempts_made_app (is_attempt : event -> bool) (evs evs' : list event) :
  attempts_made is_attempt (evs ++ evs') =
  attempts_made is_attempt evs + attempts_made is_attempt evs'.
Proof.
  unfold attempts_made. rewrite List.filter_app, length_app. reflexivity.
Qed.

(** [downloadBlobById] never throws and reads at most four times.  When the
    first client succeeds the second is not used; the second is used only
    after the first has read twice. *)
Theorem standalone_script_never_throws (env : Env) (w : World) :
  (Retrieve.downloadBlobById env w).1 = Normal tt /\
  attempts_made is_read (events_since w (Retrieve.downloadBlobById env w).2) <= 4 /\
  match (Retrieve.attemptDownload env w).1 with
  | Normal _ => Retrieve.downloadBlobById env w = Retrieve.attemptDownload env w
  | Throw _ =>
      attempts_made is_read (events_since w (Retrieve.attemptDownload env w).2) = 2 /\
      (Retrieve.downloadBlobById env w).2 =
        (Retrieve.attemptDownload env (Retrieve.attemptDownload env w).2).2
  end.
Proof.
  unfold Retrieve.downloadBlobById, try_catch, ret.
  destruct (standalone_retrieval_run env w) as (result & evs & Htrace & Hrun & Hresult).
  destruct (standalone_run_reads _ _ _ Hrun) as [Hreads Hthrown].
  destruct (Retrieve.attemptDownload env w) as [first w1].
  cbn [fst snd] in Htrace, Hresult |- *.
  destruct first as [[] | error].
  { split; [reflexivity |]. split; [| reflexivity].
    cbn [snd]. rewrite (events_since_app _ _ _ Htrace). lia. }
  destruct result as [value | error']; [discriminate Hresult |].
  specialize (Hthrown _ eq_refl).
  destruct (standalone_retrieval_run env w1)
    as (result' & evs' & Htrace' & Hrun' & Hresult').
  destruct (standalone_run_reads _ _ _ Hrun') as [Hreads' _].
  destruct (Retrieve.attemptDownload env w1) as [second w2].
  cbn [fst snd] in Htrace', Hresult' |- *.
  assert (trace w2 =
          trace w ++ (EvGetBlob Retrieve.blobId :: evs) ++
                     (EvGetBlob Retrieve.blobId :: evs')) as Hall.
  { rewrite Htrace', Htrace, <- app_assoc. reflexivity. }
  split; [destruct second as [[] |]; reflexivity |].
  split.
  - assert (events_since w (match second with
                            | Normal a => (Normal a, w2)
                            | Throw _ => (Normal tt, w2)
                            end).2 =
            (EvGetBlob Retrieve.blobId :: evs) ++ (EvGetBlob Retrieve.blobId :: evs'))
      as ->.
    { apply events_since_app. destruct second; exact Hall. }
    rewrite attempts_made_app. lia.
  - split; [rewrite (events_since_app _ _ _ Htrace); exact Hthrown |].
    destruct second; reflexivity.
Qed.

(** ** The integrity checks *)

Lemma differ_at_false (a b : bytes) (i : nat) :
  Integrity.differ_at a b i = false <-> a !! i = b !! i.
Proof.
  unfold Integrity.differ_at.
  destruct (a !! i) as [x |], (b !! i) as [y |]; split; intros H;
    try discriminate H; try reflexivity.
  - apply negb_false_iff, byte_eqb_eq in H. subst y. reflexivity.
  - injection H as ->. apply negb_false_iff, Byte.byte_dec_lb. reflexivity.
Qed.

Lemma first_mismatch_none (original retrieved : bytes) :
  length retrieved = length original ->
  Integrity.first_mismatch original retrieved = None <->
  take 50 retrieved = take 50 original.
Proof.
  intros Hlength. unfold Integrity.first_mismatch. split.
  - intros Hnone. apply list_eq. intros i. rewrite !lookup_take.
    destruct (decide (i < 50)) as [Hi | Hi]; [| reflexivity].
    destruct (decide (i < length original)) as [Hi' | Hi'].
    + symmetry. apply differ_at_false.
      apply (find_none _ _ Hnone). apply in_seq. lia.
    + rewrite !lookup_ge_None_2 by lia. reflexivity.
  - intros Htake. destruct (List.find _ _) as [i |] eqn:Hfound; [| reflexivity].
    apply find_some in Hfound as [Hin Hdiffers]. apply in_seq in Hin.
    assert (original !! i = retrieved !! i) as Hsame.
    { rewrite <- (lookup_take_lt original 50 i), <- (lookup_take_lt retrieved 50 i) by lia.
      rewrite Htake. reflexivity. }
    apply differ_at_false in Hsame. congruence.
Qed.

Lemma checksum_from (contents : bytes) (a : N) :
  fold_left (fun a b => (a + Byte.to_N b)%N) contents a =
  (a + Integrity.checksum contents)%N.
Proof.
  unfold Integrity.checksum. revert a.
  induction contents as [| b contents IH]; intros a; cbn [fold_left].
  - lia.
  - rewrite IH, (IH (0 + Byte.to_N b)%N). lia.
Qed.

Lemma checksum_cons (b : Byte.byte) (contents : bytes) :
  Integrity.checksum (b :: contents) = (Byte.to_N b + Integrity.checksum contents)%N.
Proof.
  unfold Integrity.checksum at 1. cbn [fold_left]. rewrite checksum_from. lia.
Qed.

Lemma checksum_permutation (contents contents' : bytes) :
  Permutation contents contents' ->
  Integrity.checksum contents = Integrity.checksum contents'.
Proof.
  induction 1 as [| b l l' _ IH | a b l | l l' l'' _ IH1 _ IH2].
  - reflexivity.
  - rewrite !checksum_cons, IH. reflexivity.
  - rewrite !checksum_cons. lia.
  - congruence.
Qed.

Lemma integrity_checks_compared (decode : bytes -> string) (original retrieved : bytes) :
  length retrieved = length original ->
  take 50 retrieved = take 50 original ->
  Integrity.integrity_checks decode original retrieved =
  Integrity.Compared (String.prefix "%PDF" (decode (take 8 original)))
    (Integrity.checksum original =? Integrity.checksum retrieved)%N.
Proof.
  intros Hlength Htake. unfold Integrity.integrity_checks.
  rewrite Hlength, Nat.eqb_refl.
  rewrite (proj2 (first_mismatch_none _ _ Hlength) Htake).
  assert (take 8 retrieved = take 8 original) as ->.
  { change 8 with (8 `min` 50). rewrite <- !take_take, Htake. reflexivity. }
  rewrite String.eqb_refl. reflexivity.
Qed.

(** The checks report a match in size, in the first 50 bytes and in the
    checksum exactly when the two files have the same length, the same
    first 50 bytes and the same sum of bytes. *)
Theorem integrity_checks_pass_iff (decode : bytes -> string)
    (original retrieved : bytes) :
  (exists headerIntact,
      Integrity.integrity_checks decode original retrieved =
      Integrity.Compared headerIntact true) <->
  length retrieved = length original /\
  take 50 retrieved = take 50 original /\
  Integrity.checksum retrieved = Integrity.checksum original.
Proof.
  split.
  - intros [headerIntact Hreport]. unfold Integrity.integrity_checks in Hreport.
    destruct (length retrieved =? length original)%nat eqn:Hlength;
      [| discriminate Hreport].
    apply Nat.eqb_eq in Hlength.
    destruct (Integrity.first_mismatch original retrieved) eqn:Hfirst;
      [discriminate Hreport |].
    injection Hreport as _ Hsum. apply N.eqb_eq in Hsum.
    split; [exact Hlength |]. split; [| congruence].
    apply first_mismatch_none; assumption.
  - intros (Hlength & Htake & Hsum). eexists.
    rewrite integrity_checks_compared by assumption.
    rewrite Hsum, N.eqb_refl. reflexivity.
Qed.

(** The checks do not see a reordering of the bytes after the first 50: a
    retrieved file that is the original with later bytes permuted passes
    them all, as the original itself does. *)
Theorem integrity_checks_miss_reordering (decode : bytes -> string)
    (original retrieved : bytes) :
  take 50 retrieved = take 50 original ->
  Permutation original retrieved ->
  Integrity.integrity_checks decode original retrieved =
  Integrity.Compared (String.prefix "%PDF" (decode (take 8 original))) true.
Proof.
  intros Htake Hperm.
  rewrite integrity_checks_compared
    by (try exact Htake; symmetry; apply Permutation_length; exact Hperm).
  rewrite (checksum_permutation _ _ Hperm), N.eqb_refl. reflexivity.
Qed.

Lemma integrity_checks_miss_reordering_witness :
  reordered_file <> original_file /\
  Integrity.integrity_checks ascii_decode original_file reordered_file =
  Integrity.Compared true true.
Proof.
  split; [discriminate |].
  apply (integrity_checks_miss_reordering ascii_decode original_file reordered_file).
  - reflexivity.
  - unfold original_file, reordered_file.
    do 2 apply Permutation_app_head. apply perm_swap.
Defined.

(** ** The library wrapper and the script together *)





(** What a block prints. *)






























(** ** The contract service, continued *)

Ltac unfold_service :=
  unfold Service.createItem, Service.purchaseItem, Service.rentItem,
    Service.updateItemPrices, Service.deactivateItem, Service.transact in *;
  unfold mbind, Service.S_bind, Service.bind, Service.try_catch, Service.rpc,
    Service.ret, Service.throw in *.

(** The balance query and the deployment check of [createItem] decide
    nothing: whatever the two queries answer, also that no code is deployed
    at the address of the contract, [createItem] returns the same and makes
    the same calls, the gas estimate and the transaction among them. *)
Theorem createItem_checks_are_inert (c : Service.Contract) (signer : Service.Signer)
    (balance : list Service.call -> string -> completion Z)
    (code : list Service.call -> string -> completion string)
    (title description blobId price rentalPrice : string) (h : list Service.call) :
  Service.createItem (Service.mkContractService c (Some (with_checks signer balance code)))
    title description blobId price rentalPrice h =
  Service.createItem (Service.mkContractService c (Some signer))
    title description blobId price rentalPrice h.
Proof.
  unfold_service. cbn [Service.signer Service.contract with_checks Service.getAddress
                         Service.provider_getNetwork Service.provider_getBalance
                         Service.provider_getCode].
  destruct (Service.getAddress signer h) as [address |]; [| reflexivity].
  destruct (Service.provider_getNetwork signer _) as [network |]; [| reflexivity].
  destruct (Service.getAddress signer _) as [address' |].
  - destruct (balance _ _), (Service.provider_getBalance signer _ _);
      destruct (code _ _) as [code1 |], (Service.provider_getCode signer _ _) as [code2 |];
      try destruct (String.eqb code1 "0x"); try destruct (String.eqb code2 "0x");
      reflexivity.
  - destruct (code _ _) as [code1 |], (Service.provider_getCode signer _ _) as [code2 |];
      try destruct (String.eqb code1 "0x"); try destruct (String.eqb code2 "0x");
      reflexivity.
Qed.

Lemma calls_since_app (h l : list Service.call) : calls_since h (h ++ l) = l.
Proof. apply drop_app_length. Qed.

Lemma calls_since_nil (h : list Service.call) : calls_since h h = [].
Proof. unfold calls_since. apply drop_all. Qed.

(** The queries before the gas estimate send nothing, and only a failure of
    the first two stops [createItem]. *)
Lemma preflight_run (signer : Service.Signer) (c : Service.Contract)
    (h : list Service.call) :
  exists l,
    (preflight signer c h).2 = h ++ l /\
    Forall (fun call => is_send call = false) l /\
    match (preflight signer c h).1 with
    | Normal _ => True
    | Throw error =>
        (l = [Service.GetAddress] /\ Service.getAddress signer h = Throw error) \/
        (l = [Service.GetAddress; Service.GetNetwork] /\
         Service.provider_getNetwork signer (h ++ [Service.GetAddress]) = Throw error)
    end.
Proof.
  unfold preflight. unfold_service.
  destruct (Service.getAddress signer h) as [address | error] eqn:Haddress.
  2:{ eexists. split; [reflexivity |]. split; [repeat constructor |].
      left. split; reflexivity. }
  destruct (Service.provider_getNetwork signer _) as [network | error] eqn:Hnetwork.
  2:{ eexists. cbn [fst snd]. rewrite <- !app_assoc.
      split; [reflexivity |]. split; [repeat constructor |].
      right. split; reflexivity. }
  clear Haddress Hnetwork.
  destruct (Service.getAddress signer _) as [address' |];
    [destruct (Service.provider_getBalance signer _ _) |];
    (destruct (Service.provider_getCode signer _ _) as [code |];
     [destruct (String.eqb code "0x") |]);
    eexists; cbn [fst snd]; rewrite <- !app_assoc;
    (split; [reflexivity |]); (split; [repeat constructor | exact I]).
Qed.

Lemma createItem_run (this : Service.ContractService) (signer : Service.Signer)
    (title description blobId price rentalPrice : string) (h : list Service.call) :
  Service.signer this = Some signer ->
  let c := Service.contract this in
  let r := Service.CreateItem title description blobId price rentalPrice in
  Service.createItem this title description blobId price rentalPrice h =
  match preflight signer c h with
  | (Throw error, h1) => (Throw error, h1)
  | (Normal _, h1) =>
      match Service.estimateGas c h1 r with
      | Throw error => (Throw (estimate_error error), h1 ++ [Service.EstimateGas r])
      | Normal gasEstimate =>
          let o := Service.mkOverrides (Some (gasEstimate * 120 ÷ 100)%Z) None in
          match Service.staticCall c (h1 ++ [Service.EstimateGas r]) r with
          | Throw error =>
              (Throw (JsError ("Contract validation failed: " +:+ error_message error)),
               h1 ++ [Service.EstimateGas r; Service.StaticCall r])
          | Normal _ =>
              match Service.send c (h1 ++ [Service.EstimateGas r; Service.StaticCall r])
                      r o with
              | Throw error =>
                  (Throw error,
                   h1 ++ [Service.EstimateGas r; Service.StaticCall r; Service.Send r o])
              | Normal tx =>
                  (match Service.wait c
                           (h1 ++ [Service.EstimateGas r; Service.StaticCall r;
                                   Service.Send r o]) tx with
                   | Throw error => Throw error
                   | Normal receipt => created_item c receipt
                   end,
                   h1 ++ [Service.EstimateGas r; Service.StaticCall r;
                          Service.Send r o; Service.Wait tx])
              end
          end
      end
  end.
Proof.
  intros Hsigner. cbn zeta. unfold Service.createItem. rewrite Hsigner.
  unfold preflight, created_item, estimate_error. unfold_service.
  destruct (Service.getAddress signer h) as [address |]; [| reflexivity].
  destruct (Service.provider_getNetwork signer _) as [network |]; [| reflexivity].
  set (r := Service.CreateItem title description blobId price rentalPrice).
  set (c := Service.contract this).
  destruct (Service.getAddress signer _) as [address' |];
    [destruct (Service.provider_getBalance signer _ _) |];
    (destruct (Service.provider_getCode signer _ _) as [code |];
     [destruct (String.eqb code "0x") |]); cbn [fst snd].
  all: match goal with
       | |- context [Service.estimateGas ?c' ?h1 ?r'] =>
           destruct (Service.estimateGas c' h1 r') as [gasEstimate | ?]
       end;
    [| destruct (_ || _); reflexivity].
  all: rewrite <- ?app_assoc; cbn [app].
  all: match goal with
       | |- context [Service.staticCall ?c' ?h2 ?r'] =>
           destruct (Service.staticCall c' h2 r') as [expected | ?]
       end; rewrite <- ?app_assoc; cbn [app]; [| reflexivity].
  all: match goal with
       | |- context [Service.send ?c' ?h3 ?r' ?o] =>
           destruct (Service.send c' h3 r' o) as [tx | ?]
       end; rewrite <- ?app_assoc; cbn [app]; [| reflexivity].
  all: match goal with
       | |- context [Service.wait ?c' ?h4 ?tx'] =>
           destruct (Service.wait c' h4 tx') as [receipt | ?]
       end; rewrite <- ?app_assoc; cbn [app]; [| reflexivity].
  all: destruct (List.find _ _) as [event |]; [| reflexivity].
  all: destruct (Service.parseLog c event); reflexivity.
Qed.

Lemma no_send_in (l : list Service.call) (i : nat) (r : Service.request)
    (o : Service.Overrides) :
  Forall (fun call => is_send call = false) l ->
  l !! i = Some (Service.Send r o) -> False.
Proof.
  intros Hl Hi. rewrite Forall_lookup in Hl. specialize (Hl _ _ Hi). discriminate Hl.
Qed.

Lemma take_past (l tail : list Service.call) (n : nat) :
  take (length l + n) (l ++ tail) = l ++ take n tail.
Proof.
  rewrite take_app, take_ge by lia. f_equal. f_equal. lia.
Qed.

(** [createItem] sends a transaction only after the gas estimate and the
    static call, made just before it, have both succeeded; the transaction
    is the [createItem] of the contract on the arguments given, with a gas
    limit of 120% of the estimate, rounded down. *)
Theorem createItem_sends_after_validation (this : Service.ContractService)
    (title description blobId price rentalPrice : string) (h : list Service.call)
    (i : nat) (r : Service.request) (o : Service.Overrides) :
  calls_since h (Service.createItem this title description blobId price rentalPrice h).2
    !! i = Some (Service.Send r o) ->
  exists before gasEstimate expected,
    take (S i)
      (calls_since h
         (Service.createItem this title description blobId price rentalPrice h).2) =
      before ++ [Service.EstimateGas r; Service.StaticCall r; Service.Send r o] /\
    r = Service.CreateItem title description blobId price rentalPrice /\
    Service.estimateGas (Service.contract this) (h ++ before) r = Normal gasEstimate /\
    Service.staticCall (Service.contract this)
      (h ++ before ++ [Service.EstimateGas r]) r = Normal expected /\
    o = Service.mkOverrides (Some (gasEstimate * 120 ÷ 100)%Z) None.
Proof.
  destruct (Service.signer this) as [signer |] eqn:Hsigner.
  2:{ unfold Service.createItem. rewrite Hsigner. cbn [Service.throw snd].
      rewrite calls_since_nil. intros Hi. discriminate Hi. }
  rewrite (createItem_run this signer _ _ _ _ _ h Hsigner). cbn zeta.
  destruct (preflight_run signer (Service.contract this) h) as (l & Hl & Hquiet & _).
  destruct (preflight signer (Service.contract this) h) as [[[] | error] h1];
    cbn [fst snd] in Hl |- *; subst h1.
  2:{ rewrite calls_since_app. intros Hi. destruct (no_send_in _ _ _ _ Hquiet Hi). }
  destruct (Service.estimateGas _ _ _) as [gasEstimate | error] eqn:Hestimate;
    [destruct (Service.staticCall _ _ _) as [expected | error] eqn:Hstatic;
     [destruct (Service.send _ _ _ _) as [tx | error] |] |];
    cbn [snd]; rewrite <- app_assoc, calls_since_app; intros Hi;
    (apply lookup_app_Some in Hi as [Hi | [Hlength Hi]];
     [destruct (no_send_in _ _ _ _ Hquiet Hi) |]);
    destruct (i - length l) as [| [| [| [| k]]]] eqn:Hk; cbn in Hi;
    try discriminate Hi;
    injection Hi as <- <-;
    exists l, gasEstimate, expected;
    (replace (S i) with (length l + 3) by lia); rewrite take_past; cbn [take];
    rewrite app_assoc; repeat split; assumption.
Qed.

Lemma createItem_sends_after_validation_witness :
  exists before,
    take 8 (calls_since []
              (Service.createItem (sample_service []) "title" "description" "blob-1"
                 "1000" "10" []).2) =
    before ++
      [Service.EstimateGas (Service.CreateItem "title" "description" "blob-1" "1000" "10");
       Service.StaticCall (Service.CreateItem "title" "description" "blob-1" "1000" "10");
       Service.Send (Service.CreateItem "title" "description" "blob-1" "1000" "10")
         (Service.mkOverrides (Some 120001%Z) None)].
Proof.
  destruct (createItem_sends_after_validation (sample_service []) "title" "description"
              "blob-1" "1000" "10" [] 7
              (Service.CreateItem "title" "description" "blob-1" "1000" "10")
              (Service.mkOverrides (Some 120001%Z) None) eq_refl)
    as (before & _ & _ & Htake & _).
  exists before. exact Htake.
Defined.

(** Once the transaction is confirmed, [createItem] returns the item id of
    the first log of the receipt that parses as [ItemCreated], converted by
    [Number] and never [NaN]; when no log does, it throws, although the
    transaction has been sent and confirmed. *)
Theorem createItem_after_confirmation (this : Service.ContractService)
    (title description blobId price rentalPrice : string) (h before : list Service.call)
    (tx : Service.Tx) (receipt : Service.Receipt) :
  calls_since h (Service.createItem this title description blobId price rentalPrice h).2 =
    before ++ [Service.Wait tx] ->
  Service.wait (Service.contract this) (h ++ before) tx = Normal receipt ->
  (exists o,
     last before =
       Some (Service.Send
               (Service.CreateItem title description blobId price rentalPrice) o)) /\
  match List.find (Service.is_ItemCreated (Service.contract this))
          (Service.logs receipt) with
  | Some event =>
      exists parsed,
        Service.parseLog (Service.contract this) event = Normal (Some parsed) /\
        Service.name parsed = "ItemCreated" /\
        (Service.createItem this title description blobId price rentalPrice h).1 =
          Normal (Service.Int (Contract.Number (Service.args_itemId parsed)))
  | None =>
      (Service.createItem this title description blobId price rentalPrice h).1 =
        Throw (JsError "Failed to get item ID from transaction")
  end.
Proof.
  destruct (Service.signer this) as [signer |] eqn:Hsigner.
  2:{ unfold Service.createItem. rewrite Hsigner. cbn [Service.throw snd].
      rewrite calls_since_nil. intros Hcalls.
      destruct before; discriminate Hcalls. }
  rewrite (createItem_run this signer _ _ _ _ _ h Hsigner). cbn zeta.
  destruct (preflight_run signer (Service.contract this) h) as (l & Hl & Hquiet & Hstop).
  destruct (preflight signer (Service.contract this) h) as [[[] | error] h1];
    cbn [fst snd] in Hl, Hstop |- *; subst h1.
  2:{ rewrite calls_since_app. intros Hcalls.
      destruct Hstop as [[-> _] | [-> _]].
      - apply (app_inj_tail []) in Hcalls as [_ Hcall]. discriminate Hcall.
      - apply (app_inj_tail [Service.GetAddress]) in Hcalls as [_ Hcall].
        discriminate Hcall. }
  set (r := Service.CreateItem title description blobId price rentalPrice).
  destruct (Service.estimateGas _ _ _) as [gasEstimate | error].
  2:{ cbn [snd]. rewrite <- app_assoc, calls_since_app. intros Hcalls.
      apply app_inj_tail in Hcalls as [_ Hcall]. discriminate Hcall. }
  destruct (Service.staticCall _ _ _) as [expected | error].
  2:{ cbn [snd]. rewrite <- app_assoc, calls_since_app. intros Hcalls.
      change (l ++ [Service.EstimateGas r; Service.StaticCall r])
        with (l ++ [Service.EstimateGas r] ++ [Service.StaticCall r]) in Hcalls.
      rewrite app_assoc in Hcalls.
      apply app_inj_tail in Hcalls as [_ Hcall]. discriminate Hcall. }
  set (o := Service.mkOverrides (Some (gasEstimate * 120 ÷ 100)%Z) None).
  destruct (Service.send _ _ _ _) as [tx' | error].
  2:{ cbn [snd]. rewrite <- app_assoc, calls_since_app. intros Hcalls.
      change (l ++ [Service.EstimateGas r; Service.StaticCall r; Service.Send r o])
        with (l ++ [Service.EstimateGas r; Service.StaticCall r] ++ [Service.Send r o])
        in Hcalls.
      rewrite app_assoc in Hcalls.
      apply app_inj_tail in Hcalls as [_ Hcall]. discriminate Hcall. }
  cbn [fst snd]. rewrite <- app_assoc, calls_since_app. intros Hcalls.
  change (l ++ [Service.EstimateGas r; Service.StaticCall r; Service.Send r o;
                Service.Wait tx'])
    with (l ++ [Service.EstimateGas r; Service.StaticCall r; Service.Send r o]
            ++ [Service.Wait tx']) in Hcalls.
  rewrite app_assoc in Hcalls.
  apply app_inj_tail in Hcalls as [<- Hcall]. injection Hcall as ->.
  rewrite <- app_assoc. intros Hwait. rewrite Hwait.
  split.
  { exists o. rewrite last_app. reflexivity. }
  unfold created_item.
  destruct (List.find _ _) as [event |] eqn:Hfound; [| reflexivity].
  apply find_some in Hfound as [_ Hevent]. unfold Service.is_ItemCreated in Hevent.
  destruct (Service.parseLog _ event) as [[parsed |] | error]; try discriminate Hevent.
  exists parsed. split; [reflexivity |]. split; [| reflexivity].
  apply String.eqb_eq. exact Hevent.
Qed.

Lemma createItem_after_confirmation_witness :
  (Service.createItem
     (sample_service [Service.mkLog ["Transfer"] "0x"; Service.mkLog ["ItemCreated"] "0x07"])
     "title" "description" "blob-1" "1000" "10" []).1 =
    Normal (Service.Int 7).
Proof.
  destruct (createItem_after_confirmation
              (sample_service [Service.mkLog ["Transfer"] "0x";
                               Service.mkLog ["ItemCreated"] "0x07"])
              "title" "description" "blob-1" "1000" "10" []
              [Service.GetAddress; Service.GetNetwork; Service.GetAddress;
               Service.GetBalance "0xa11ce"; Service.GetCode "0xc0ffee";
               Service.EstimateGas
                 (Service.CreateItem "title" "description" "blob-1" "1000" "10");
               Service.StaticCall
                 (Service.CreateItem "title" "description" "blob-1" "1000" "10");
               Service.Send
                 (Service.CreateItem "title" "description" "blob-1" "1000" "10")
                 (Service.mkOverrides (Some 120001%Z) None)]
              (Service.mkTx "0x7a")
              (Service.mkReceipt [Service.mkLog ["Transfer"] "0x";
                                  Service.mkLog ["ItemCreated"] "0x07"])
              eq_refl eq_refl) as [_ Hresult].
  change (List.find _ _) with (Some (Service.mkLog ["ItemCreated"] "0x07")) in Hresult.
  destruct Hresult as (parsed & Hparsed & _ & Hresult).
  vm_compute in Hparsed. injection Hparsed as <-. exact Hresult.
Defined.

Lemma transactions_sent_app (l tail : list Service.call) :
  Forall (fun call => is_send call = false) l ->
  transactions_sent (l ++ tail) = transactions_sent tail.
Proof.
  intros Hl. unfold transactions_sent. rewrite List.filter_app, length_app.
  replace (List.filter is_send l) with (@nil Service.call); [reflexivity |].
  induction Hl as [| call l Hcall _ IH]; [reflexivity |].
  cbn [List.filter]. rewrite Hcall. exact IH.
Qed.

Lemma transact_sends_once (c : Service.Contract) (r : Service.request)
    (o : Service.Overrides) (h : list Service.call) :
  exists tail,
    (Service.transact c r o h).2 = h ++ tail /\ transactions_sent tail = 1.
Proof.
  unfold_service.
  destruct (Service.send c h r o) as [tx |]; [destruct (Service.wait c _ tx) |];
    cbn [fst snd]; rewrite <- ?app_assoc; eexists; split; reflexivity.
Qed.

(** No method of the service sends more than one transaction, whatever
    fails, and without a signer none makes any call. *)
Theorem writes_send_at_most_once (this : Service.ContractService) (m : Service.method)
    (h : list Service.call) :
  transactions_sent (calls_since h (calls_of this m h)) <= 1 /\
  (Service.signer this = None -> calls_of this m h = h).
Proof.
  destruct (Service.signer this) as [signer |] eqn:Hsigner.
  2:{ destruct m; cbn [calls_of]; unfold_service; rewrite Hsigner; cbn [snd];
        rewrite calls_since_nil; split; (reflexivity || (cbn; lia)). }
  split; [| discriminate].
  destruct m as [title description blobId price rentalPrice | | | |]; cbn [calls_of].
  - rewrite (createItem_run this signer _ _ _ _ _ h Hsigner). cbn zeta.
    destruct (preflight_run signer (Service.contract this) h) as (l & Hl & Hquiet & _).
    destruct (preflight signer (Service.contract this) h) as [[[] | error] h1];
      cbn [fst snd] in Hl |- *; subst h1.
    2:{ rewrite calls_since_app, <- (app_nil_r l), transactions_sent_app by exact Hquiet.
        cbn. lia. }
    destruct (Service.estimateGas _ _ _);
      [destruct (Service.staticCall _ _ _); [destruct (Service.send _ _ _ _) |] |];
      cbn [snd]; rewrite <- app_assoc, calls_since_app,
        transactions_sent_app by exact Hquiet; cbn; lia.
  - unfold Service.purchaseItem. rewrite Hsigner.
    destruct (transact_sends_once (Service.contract this) (Service.PurchaseItem itemId)
                (Service.mkOverrides None (Some value)) h) as (tail & -> & Hsent).
    rewrite calls_since_app. lia.
  - unfold Service.rentItem. rewrite Hsigner.
    unfold mbind, Service.S_bind, Service.bind, Service.rpc.
    destruct (Service.getAddress signer h).
    + destruct (transact_sends_once (Service.contract this)
                  (Service.RentItem itemId startTime endTime)
                  (Service.mkOverrides None (Some value)) (h ++ [Service.GetAddress]))
        as (tail & -> & Hsent).
      rewrite <- app_assoc, calls_since_app.
      rewrite (transactions_sent_app [Service.GetAddress]) by (repeat constructor). lia.
    + cbn [snd]. rewrite calls_since_app. cbn. lia.
  - unfold Service.updateItemPrices. rewrite Hsigner.
    destruct (transact_sends_once (Service.contract this)
                (Service.UpdateItemPrices itemId newPrice newRentalPrice)
                (Service.mkOverrides None None) h) as (tail & -> & Hsent).
    rewrite calls_since_app. lia.
  - unfold Service.deactivateItem. rewrite Hsigner.
    destruct (transact_sends_once (Service.contract this) (Service.DeactivateItem itemId)
                (Service.mkOverrides None None) h) as (tail & -> & Hsent).
    rewrite calls_since_app. lia.
Qed.

Lemma writes_send_at_most_once_witness :
  calls_of (Service.mkContractService (sample_contract []) None)
    (Service.purchaseItem_of 7 "1000") [] = [].
Proof.
  exact (proj2 (writes_send_at_most_once
                  (Service.mkContractService (sample_contract []) None)
                  (Service.purchaseItem_of 7 "1000") []) eq_refl).
Defined.
